(** * Comic Weaver: story orchestrator, chapter pipeline and image request scheduler

    A shallow embedding of [src/state/storyMachine.ts] (the xstate story machine
    and its [generateChapter] actor) and of the image request scheduler and
    retry helper of [src/services/geminiService.ts].

    Modelling conventions.
    - JavaScript numbers used for mood values are modelled as rationals [Q];
      [Math.min] becomes [Math_min] below.  Panel indices and timestamps are
      integers and modelled as [Z].
    - Calls to external generation services are oracles: functions from the
      request (or from the call number) to the value the service resolves with.
    - [undefined] / [null] optional fields are [option]. *)

From Stdlib Require Import QArith Qround ZArith List String Bool Lia Lqa.
Import ListNotations.

Open Scope string_scope.

(* ------------------------------------------------------------------------- *)
(** ** Data model ([src/types.ts]) *)

Inductive Theme := fantasy | scifi | school.

(** The keys of a [MoodVector], in the order the object literals of the
    source list them (and hence the order of [Object.keys]). *)
Inductive MoodKey := adventure | danger | romance | drama.

Record MoodVector := mkMood {
  mv_adventure : Q;
  mv_danger : Q;
  mv_romance : Q;
  mv_drama : Q;
}.

Definition mood_get (m : MoodVector) (k : MoodKey) : Q :=
  match k with
  | adventure => mv_adventure m
  | danger => mv_danger m
  | romance => mv_romance m
  | drama => mv_drama m
  end.

Record Panel := mkPanel {
  image : string;
  narrative : string;
  narrativeAudio : option string;
  soundEffectAudio : option string;
  stingerAudio : option string;
}.

Record Choice := mkChoice {
  choice_text : string;
  impact : MoodVector;
}.

Record NPC := mkNPC {
  npc_name : string;
  npc_description : string;
  referenceImage : string;
}.

Record StoryContext := mkContext {
  mood : MoodVector;
  theme : option Theme;
  choices : list Choice;
  allPanels : list Panel;
  currentPanelIndex : Z;
  characterReference : option string;
  characterDescription : option string;
  isGenerating : bool;
  error : option string;
  ending : option MoodKey;
  backgroundMusic : option string;
  isMuted : bool;
  apiKey : option string;
  elevenLabsApiKey : option string;
  lastChoiceText : option string;
  npcs : list NPC;
}.

Definition initialContext : StoryContext := {|
  mood := mkMood (1#4) (1#4) (1#4) (1#4);
  theme := None;
  choices := [];
  allPanels := [];
  currentPanelIndex := 0;
  characterReference := None;
  characterDescription := None;
  isGenerating := false;
  error := None;
  ending := None;
  backgroundMusic := None;
  isMuted := false;
  apiKey := None;
  elevenLabsApiKey := None;
  lastChoiceText := None;
  npcs := [];
|}.

(** [Math.min] on (non-NaN) numbers. *)
Definition Math_min (a b : Q) : Q := if Qle_bool a b then a else b.

(** The JavaScript comparison [a > b] on (non-NaN) numbers. *)
Definition Q_gt (a b : Q) : bool := negb (Qle_bool a b).

(** [GenerationOutput], the result of the [generateChapter] actor. *)
Record GenerationOutput := mkGenOut {
  newPanels : list Panel;
  out_choices : list Choice;
  out_characterDescription : option string;
  out_characterReference : option string;
  out_backgroundMusic : option string;
  newNpcs : list NPC;
}.

(** What an actor's promise rejects with: an [Error] instance (carrying its
    [message]) or any other thrown value. *)
Inductive ActorError :=
  | ErrorInstance (message : string)
  | NonErrorThrown.

(* ------------------------------------------------------------------------- *)
(** ** The story machine ([storyMachine] in [src/state/storyMachine.ts]) *)

Inductive StateValue :=
  | idle | loadingSavedStory | loadingCompletedStory | generating | playing
  | endingGenerating | storyEnded | viewingPrevious.

(** User events, and the done / error events of the invoked actors. *)
Inductive Event :=
  | START (t : Theme) (key : string) (elevenKey : string)
  | CONTINUE
  | MAKE_CHOICE (c : Choice)
  | VIEW_PREV
  | VIEW_NEXT
  | RESTART
  | TOGGLE_MUTE
  | EXIT_TO_MENU
  | VIEW_PREVIOUS
  | DoneGenerateChapter (output : GenerationOutput)
  | ErrorGenerateChapter (err : ActorError)
  | DoneGenerateEnding (panels : list Panel)
  | ErrorGenerateEnding (err : ActorError).

Definition panelCount (ctx : StoryContext) : Z := Z.of_nat (List.length (allPanels ctx)).

(** The [mood] assigner shared by both [MAKE_CHOICE] branches. *)
Definition applied_mood (m : MoodVector) (i : MoodVector) : MoodVector := {|
  mv_adventure := Math_min 1 (mv_adventure m + mv_adventure i);
  mv_danger := Math_min 1 (mv_danger m + mv_danger i);
  mv_romance := Math_min 1 (mv_romance m + mv_romance i);
  mv_drama := Math_min 1 (mv_drama m + mv_drama i);
|}.

(** The guard of the [endingGenerating] branch of [MAKE_CHOICE]. *)
Definition ending_guard (m : MoodVector) (i : MoodVector) : bool :=
  Qle_bool 1 (mv_adventure m + mv_adventure i)
  || Qle_bool 1 (mv_danger m + mv_danger i)
  || Qle_bool 1 (mv_romance m + mv_romance i)
  || Qle_bool 1 (mv_drama m + mv_drama i).

(** [(Object.keys(newMood)).reduce((a, b) => newMood[a] > newMood[b] ? a : b)]:
    [reduce] without an initial value starts from the first key. *)
Definition maxMood (nm : MoodVector) : MoodKey :=
  fold_left (fun a b => if Q_gt (mood_get nm a) (mood_get nm b) then a else b)
    [danger; romance; drama] adventure.

(** Context updaters, one per [assign] of the source. *)
Definition with_index (ctx : StoryContext) (i : Z) : StoryContext :=
  {| mood := mood ctx; theme := theme ctx; choices := choices ctx;
     allPanels := allPanels ctx; currentPanelIndex := i;
     characterReference := characterReference ctx;
     characterDescription := characterDescription ctx;
     isGenerating := isGenerating ctx; error := error ctx; ending := ending ctx;
     backgroundMusic := backgroundMusic ctx; isMuted := isMuted ctx;
     apiKey := apiKey ctx; elevenLabsApiKey := elevenLabsApiKey ctx;
     lastChoiceText := lastChoiceText ctx; npcs := npcs ctx |}.

Definition toggle_mute (ctx : StoryContext) : StoryContext :=
  {| mood := mood ctx; theme := theme ctx; choices := choices ctx;
     allPanels := allPanels ctx; currentPanelIndex := currentPanelIndex ctx;
     characterReference := characterReference ctx;
     characterDescription := characterDescription ctx;
     isGenerating := isGenerating ctx; error := error ctx; ending := ending ctx;
     backgroundMusic := backgroundMusic ctx; isMuted := negb (isMuted ctx);
     apiKey := apiKey ctx; elevenLabsApiKey := elevenLabsApiKey ctx;
     lastChoiceText := lastChoiceText ctx; npcs := npcs ctx |}.

(** [playing.MAKE_CHOICE], first branch (target [endingGenerating]). *)
Definition choice_to_ending (ctx : StoryContext) (c : Choice) : StoryContext :=
  let nm := applied_mood (mood ctx) (impact c) in
  {| mood := nm; theme := theme ctx; choices := [];
     allPanels := allPanels ctx; currentPanelIndex := currentPanelIndex ctx;
     characterReference := characterReference ctx;
     characterDescription := characterDescription ctx;
     isGenerating := true; error := error ctx; ending := Some (maxMood nm);
     backgroundMusic := backgroundMusic ctx; isMuted := isMuted ctx;
     apiKey := apiKey ctx; elevenLabsApiKey := elevenLabsApiKey ctx;
     lastChoiceText := Some (choice_text c); npcs := npcs ctx |}.

(** [playing.MAKE_CHOICE], second branch (target [generating]). *)
Definition choice_to_generating (ctx : StoryContext) (c : Choice) : StoryContext :=
  {| mood := applied_mood (mood ctx) (impact c); theme := theme ctx; choices := [];
     allPanels := allPanels ctx; currentPanelIndex := currentPanelIndex ctx;
     characterReference := characterReference ctx;
     characterDescription := characterDescription ctx;
     isGenerating := true; error := error ctx; ending := ending ctx;
     backgroundMusic := backgroundMusic ctx; isMuted := isMuted ctx;
     apiKey := apiKey ctx; elevenLabsApiKey := elevenLabsApiKey ctx;
     lastChoiceText := Some (choice_text c); npcs := npcs ctx |}.

(** [generating.invoke.onDone]. *)
Definition chapter_done (ctx : StoryContext) (o : GenerationOutput) : StoryContext :=
  {| mood := mood ctx; theme := theme ctx; choices := out_choices o;
     allPanels := allPanels ctx ++ newPanels o;
     currentPanelIndex := panelCount ctx;
     characterReference :=
       match characterReference ctx with
       | Some r => Some r
       | None => out_characterReference o
       end;
     characterDescription :=
       match characterDescription ctx with
       | Some d => Some d
       | None => out_characterDescription o
       end;
     isGenerating := false; error := error ctx; ending := ending ctx;
     backgroundMusic := out_backgroundMusic o; isMuted := isMuted ctx;
     apiKey := apiKey ctx; elevenLabsApiKey := elevenLabsApiKey ctx;
     lastChoiceText := lastChoiceText ctx; npcs := npcs ctx ++ newNpcs o |}.

Definition error_message (e : ActorError) : string :=
  match e with
  | ErrorInstance m => m
  | NonErrorThrown => "An unknown error occurred during generation."
  end.

(** [generating.invoke.onError]. *)
Definition chapter_error (ctx : StoryContext) (e : ActorError) : StoryContext :=
  {| mood := mood ctx; theme := theme ctx; choices := choices ctx;
     allPanels := allPanels ctx; currentPanelIndex := currentPanelIndex ctx;
     characterReference := characterReference ctx;
     characterDescription := characterDescription ctx;
     isGenerating := false; error := Some (error_message e); ending := ending ctx;
     backgroundMusic := backgroundMusic ctx; isMuted := isMuted ctx;
     apiKey := apiKey ctx; elevenLabsApiKey := elevenLabsApiKey ctx;
     lastChoiceText := lastChoiceText ctx; npcs := npcs ctx |}.

(** [endingGenerating.invoke.onDone]. *)
Definition ending_done (ctx : StoryContext) (ps : list Panel) : StoryContext :=
  {| mood := mood ctx; theme := theme ctx; choices := choices ctx;
     allPanels := allPanels ctx ++ ps; currentPanelIndex := panelCount ctx;
     characterReference := characterReference ctx;
     characterDescription := characterDescription ctx;
     isGenerating := false; error := error ctx; ending := ending ctx;
     backgroundMusic := backgroundMusic ctx; isMuted := isMuted ctx;
     apiKey := apiKey ctx; elevenLabsApiKey := elevenLabsApiKey ctx;
     lastChoiceText := lastChoiceText ctx; npcs := npcs ctx |}.

(** [endingGenerating.invoke.onError]: [assign({ isGenerating: false })]. *)
Definition ending_error (ctx : StoryContext) : StoryContext :=
  {| mood := mood ctx; theme := theme ctx; choices := choices ctx;
     allPanels := allPanels ctx; currentPanelIndex := currentPanelIndex ctx;
     characterReference := characterReference ctx;
     characterDescription := characterDescription ctx;
     isGenerating := false; error := error ctx; ending := ending ctx;
     backgroundMusic := backgroundMusic ctx; isMuted := isMuted ctx;
     apiKey := apiKey ctx; elevenLabsApiKey := elevenLabsApiKey ctx;
     lastChoiceText := lastChoiceText ctx; npcs := npcs ctx |}.

(** [idle.START]: [{ ...initialContext, theme, apiKey, elevenLabsApiKey,
    isGenerating: true }]. *)
Definition start_context (t : Theme) (k ek : string) : StoryContext :=
  {| mood := mood initialContext; theme := Some t; choices := [];
     allPanels := []; currentPanelIndex := 0;
     characterReference := None; characterDescription := None;
     isGenerating := true; error := None; ending := None;
     backgroundMusic := None; isMuted := false;
     apiKey := Some k; elevenLabsApiKey := Some ek;
     lastChoiceText := None; npcs := [] |}.

(** Navigation assigners.  [generating] and [endingGenerating] clamp
    [VIEW_NEXT] with an extra [Math.max(0, ...)]; [playing] and
    [viewingPrevious] do not. *)
Definition view_prev (ctx : StoryContext) : StoryContext :=
  with_index ctx (Z.max 0 (currentPanelIndex ctx - 1)).

Definition view_next_guarded (ctx : StoryContext) : StoryContext :=
  with_index ctx (Z.max 0 (Z.min (panelCount ctx - 1) (currentPanelIndex ctx + 1))).

Definition view_next_plain (ctx : StoryContext) : StoryContext :=
  with_index ctx (Z.min (panelCount ctx - 1) (currentPanelIndex ctx + 1)).

(** The machine's transition function.  Events a state does not handle leave
    the state and the context unchanged, as in xstate.  The two loading states
    (whose outcome comes from the persistent store) are not modelled: they
    accept none of the events below. *)
Definition transition (s : StateValue) (ctx : StoryContext) (e : Event)
  : StateValue * StoryContext :=
  match s, e with
  | idle, START t k ek => (generating, start_context t k ek)
  | idle, CONTINUE => (loadingSavedStory, ctx)
  | idle, VIEW_PREVIOUS => (loadingCompletedStory, ctx)
  | generating, DoneGenerateChapter o => (playing, chapter_done ctx o)
  | generating, ErrorGenerateChapter err => (playing, chapter_error ctx err)
  | generating, VIEW_PREV => (generating, view_prev ctx)
  | generating, VIEW_NEXT => (generating, view_next_guarded ctx)
  | generating, TOGGLE_MUTE => (generating, toggle_mute ctx)
  | generating, EXIT_TO_MENU => (idle, initialContext)
  | playing, MAKE_CHOICE c =>
      if ending_guard (mood ctx) (impact c)
      then (endingGenerating, choice_to_ending ctx c)
      else (generating, choice_to_generating ctx c)
  | playing, VIEW_PREV => (playing, view_prev ctx)
  | playing, VIEW_NEXT => (playing, view_next_plain ctx)
  | playing, TOGGLE_MUTE => (playing, toggle_mute ctx)
  | playing, EXIT_TO_MENU => (idle, initialContext)
  | endingGenerating, DoneGenerateEnding ps => (playing, ending_done ctx ps)
  | endingGenerating, ErrorGenerateEnding _ => (playing, ending_error ctx)
  | endingGenerating, VIEW_PREV => (endingGenerating, view_prev ctx)
  | endingGenerating, VIEW_NEXT => (endingGenerating, view_next_guarded ctx)
  | endingGenerating, TOGGLE_MUTE => (endingGenerating, toggle_mute ctx)
  | endingGenerating, EXIT_TO_MENU => (idle, initialContext)
  | storyEnded, RESTART => (idle, initialContext)
  | viewingPrevious, VIEW_PREV => (viewingPrevious, view_prev ctx)
  | viewingPrevious, VIEW_NEXT => (viewingPrevious, view_next_plain ctx)
  | viewingPrevious, TOGGLE_MUTE => (viewingPrevious, toggle_mute ctx)
  | viewingPrevious, EXIT_TO_MENU => (idle, initialContext)
  | _, _ => (s, ctx)
  end.

Definition active (s : StateValue) : bool :=
  match s with
  | generating | playing | endingGenerating | viewingPrevious => true
  | _ => false
  end.

(** [clamp(x, 0, n - 1)] on panel indices. *)
Definition clamp_index (n x : Z) : Z := Z.max 0 (Z.min (n - 1) x).

(** The claim's mood rule: [clamp(old + impact, 0, 1)]. *)
Definition clamp01 (x : Q) : Q := if Qle_bool x 0 then 0 else Math_min 1 x.

(** A context in [playing] that differs from the initial one only in its mood. *)
Definition ctx_with_mood (m : MoodVector) : StoryContext :=
  {| mood := m; theme := Some fantasy; choices := [];
     allPanels := []; currentPanelIndex := 0;
     characterReference := None; characterDescription := None;
     isGenerating := false; error := None; ending := None;
     backgroundMusic := None; isMuted := false;
     apiKey := Some "gemini-key"; elevenLabsApiKey := Some "elevenlabs-key";
     lastChoiceText := None; npcs := [] |}.

(* ------------------------------------------------------------------------- *)
(** ** Chapter pipeline: NPC resolution ([generateChapter], lines 116-128) *)

(** An entry of [directorNewNpcs]. *)
Record NewNpc := mkNewNpc {
  nn_name : string;
  nn_description : string;
}.

(** [npcs.find((n) => n.name === npc.name && n.description === npc.description)] *)
Definition find_npc (roster : list NPC) (npc : NewNpc) : option NPC :=
  find (fun n => String.eqb (npc_name n) (nn_name npc)
                 && String.eqb (npc_description n) (nn_description npc)) roster.

Definition portrait_prompt (npc : NewNpc) : string :=
  "A portrait of " ++ nn_name npc ++ ", " ++ nn_description npc.

(** One callback of [directorNewNpcs.map(async (npc) => ...)].  [gen] is the
    image service behind [generatePanelImage]; the second component lists the
    characters for which a portrait generation call is issued. *)
Definition resolve_npc (roster : list NPC) (gen : string -> string) (npc : NewNpc)
  : NPC * list NewNpc :=
  match find_npc roster npc with
  | Some existing => (existing, [])
  | None =>
      ({| npc_name := nn_name npc; npc_description := nn_description npc;
          referenceImage := gen (portrait_prompt npc) |}, [npc])
  end.

(** [createdOrReusedNpcs], with the portrait calls it issues. *)
Definition createdOrReusedNpcs (roster : list NPC) (gen : string -> string)
  (directorNewNpcs : list NewNpc) : list NPC * list NewNpc :=
  match directorNewNpcs with
  | [] => ([], [])
  | _ =>
      let rs := map (resolve_npc roster gen) directorNewNpcs in
      (map fst rs, flat_map snd rs)
  end.

(** The number of roster entries carrying a given (name, description) pair. *)
Definition count_pair (npc : NewNpc) (roster : list NPC) : nat :=
  List.length (filter (fun n => String.eqb (npc_name n) (nn_name npc)
                           && String.eqb (npc_description n) (nn_description npc)) roster).

(* ------------------------------------------------------------------------- *)
(** ** Chapter pipeline: panel rendering and the audio caps (lines 142-211) *)

(** A panel of [directorPanels] (only the fields the rendering uses). *)
Record PanelDraft := mkDraft {
  pd_description : string;
  pd_narrative : string;
}.

(** An entry of [audioBriefs.perPanel]. *)
Record PanelBrief := mkBrief {
  sfxPrompt : string;
  stingerPrompt : option string;
}.

(** JavaScript truthiness of an optional string. *)
Definition str_truthy (s : option string) : bool :=
  match s with
  | Some x => negb (String.eqb x "")
  | None => false
  end.

(** [s || undefined] for a string result. *)
Definition or_undefined (s : string) : option string :=
  if String.eqb s "" then None else Some s.

Definition maxSfx : nat := 4.
Definition maxStingers : nat := 2.

Record Counters := mkCounters {
  sfxCount : nat;
  stingerCount : nat;
}.

(** The state of one panel task after its synchronous prefix, i.e. at its
    [await Promise.all(...)]. *)
Record PanelTask := mkTask {
  pt_index : nat;
  pt_panel : PanelDraft;
  pt_briefs : PanelBrief;
  pt_shouldGenSfx : bool;
  pt_shouldGenStinger : bool;
}.

(** [audioBriefs.perPanel[index] ?? { sfxPrompt: `Sound effect for: ...` }] *)
Definition briefs_for (perPanel : list PanelBrief) (index : nat) (p : PanelDraft)
  : PanelBrief :=
  match nth_error perPanel index with
  | Some b => b
  | None => {| sfxPrompt := "Sound effect for: " ++ substring 0 200 (pd_description p);
               stingerPrompt := None |}
  end.

(** The synchronous prefix of one [async (panel, index) => ...] callback: it
    reads the counters as they are when the callback is called. *)
Definition task_start (cnt : Counters) (perPanel : list PanelBrief) (index : nat)
  (p : PanelDraft) : PanelTask :=
  let briefs := briefs_for perPanel index p in
  {| pt_index := index; pt_panel := p; pt_briefs := briefs;
     pt_shouldGenSfx := Nat.ltb (sfxCount cnt) maxSfx;
     pt_shouldGenStinger :=
       str_truthy (stingerPrompt briefs) && Nat.ltb (stingerCount cnt) maxStingers |}.

(** [directorPanels.map(async ...)]: [Array.prototype.map] calls every callback
    in index order, and each runs until its first [await] before the next one
    is called; no callback body after an [await] can run in between, so the
    counters are threaded unchanged through this phase. *)
Fixpoint start_all (cnt : Counters) (perPanel : list PanelBrief) (index : nat)
  (ps : list PanelDraft) : Counters * list PanelTask :=
  match ps with
  | [] => (cnt, [])
  | p :: rest =>
      let t := task_start cnt perPanel index p in
      let '(cnt', ts) := start_all cnt perPanel (S index) rest in
      (cnt', t :: ts)
  end.

(** The generation services a panel task awaits: the image of a panel (which
    depends on the rendering path), [generateSoundEffect] and
    [generateStinger]; the audio services resolve with [""] on failure. *)
Record Services := mkServices {
  panel_image : nat -> PanelDraft -> string;
  sound_effect : string -> string;
  stinger : string -> string;
}.

Definition task_sfx (sv : Services) (t : PanelTask) : string :=
  if pt_shouldGenSfx t then sound_effect sv (sfxPrompt (pt_briefs t)) else "".

Definition task_stinger (sv : Services) (t : PanelTask) : string :=
  if pt_shouldGenStinger t
  then match stingerPrompt (pt_briefs t) with Some s => stinger sv s | None => "" end
  else "".

(** The continuation of a panel task after its [await]: counter updates. *)
Definition task_finish (sv : Services) (cnt : Counters) (t : PanelTask) : Counters :=
  {| sfxCount := if pt_shouldGenSfx t && negb (String.eqb (task_sfx sv t) "")
                 then S (sfxCount cnt) else sfxCount cnt;
     stingerCount := if pt_shouldGenStinger t && negb (String.eqb (task_stinger sv t) "")
                     then S (stingerCount cnt) else stingerCount cnt |}.

(** The panel a task resolves with. *)
Definition task_panel (sv : Services) (t : PanelTask) : Panel :=
  {| image := panel_image sv (pt_index t) (pt_panel t);
     narrative := pd_narrative (pt_panel t);
     narrativeAudio := None;
     soundEffectAudio := or_undefined (task_sfx sv t);
     stingerAudio := or_undefined (task_stinger sv t) |}.

(** [panelsWithAudio = await Promise.all(directorPanels.map(async ...))]: the
    continuations run in [completion] order (a permutation of the panel
    indices decided by the services), and [Promise.all] collects the panels
    positionally.  Returns the final counters and the panels. *)
Definition render_panels (sv : Services) (perPanel : list PanelBrief)
  (completion : list nat) (ps : list PanelDraft) : Counters * list Panel :=
  let '(cnt, tasks) := start_all (mkCounters 0 0) perPanel 0 ps in
  let cnt' := fold_left (fun c i => match nth_error tasks i with
                                    | Some t => task_finish sv c t
                                    | None => c
                                    end) completion cnt in
  (cnt', map (task_panel sv) tasks).

(** The rendering paths differ only in where a panel's image comes from.  On
    the reference-page path it is [generatePanelImageFromPageRef] ([None] when
    that call rejects), falling back to [generatePanelImage]; on the batch path
    it is [batchImages[index]]; on the sequential path a [generatePanelImage]
    call. *)
Definition image_from_page (fromPage : nat -> PanelDraft -> option string)
  (perPanel : PanelDraft -> string) : nat -> PanelDraft -> string :=
  fun index p => match fromPage index p with
                 | Some img => img
                 | None => perPanel p
                 end.

Definition count_sfx (ps : list Panel) : nat :=
  List.length (filter (fun p => match soundEffectAudio p with Some _ => true | None => false end) ps).

Definition count_stingers (ps : list Panel) : nat :=
  List.length (filter (fun p => match stingerAudio p with Some _ => true | None => false end) ps).
(* ------------------------------------------------------------------------- *)
(** ** Chapter pipeline: choice validation (lines 215-229) *)

(** JSON values as produced by [JSON.parse], plus [undefined] for absent
    properties.  Objects keep their members in source order. *)
#[warnings="-register-all"]
Inductive jval :=
  | JUndef
  | JNull
  | JBool (b : bool)
  | JNum (q : Q)
  | JStr (s : string)
  | JArr (items : list jval)
  | JObj (members : list (string * jval)).

(** Property access [v[k]]: [JSON.parse] keeps the last of duplicated keys. *)
Definition jget (v : jval) (k : string) : jval :=
  match v with
  | JObj ms => fold_left (fun acc '(k', x) => if String.eqb k k' then x else acc) ms JUndef
  | _ => JUndef
  end.

Definition truthy (v : jval) : bool :=
  match v with
  | JUndef | JNull => false
  | JBool b => b
  | JNum q => negb (Qeq_bool q 0)
  | JStr s => negb (String.eqb s "")
  | JArr _ | JObj _ => true
  end.

Definition is_string (v : jval) : bool :=
  match v with JStr _ => true | _ => false end.

Definition is_number (v : jval) : bool :=
  match v with JNum _ => true | _ => false end.

(** [validChoice = (c) => c && typeof c.text === 'string' && c.impact
    && typeof c.impact.adventure === 'number'] *)
Definition validChoice (c : jval) : bool :=
  truthy c && is_string (jget c "text") && truthy (jget c "impact")
  && is_number (jget (jget c "impact") "adventure").

(** The negation of the condition
    [!Array.isArray(finalChoices) || finalChoices.length !== 4 || !finalChoices.every(validChoice)]. *)
Definition primary_choices_accepted (finalChoices : jval) : bool :=
  match finalChoices with
  | JArr l => Nat.eqb (List.length l) 4 && forallb validChoice l
  | _ => false
  end.

(** The choice stage of [generateChapter].  [fallback] is the outcome of
    [generateChoicesFallback]: the array it resolves with, or [None] when it
    rejects.  Returns whether the fallback was invoked and the final choices. *)
Definition choice_stage (directorChoices : jval) (fallback : option (list jval))
  : bool * jval :=
  if primary_choices_accepted directorChoices
  then (false, directorChoices)
  else match fallback with
       | Some cs => (true, JArr cs)
       | None => (true, JArr [])
       end.

(** The claim's validity test: four entries, each with a text label and a
    numeric impact on all four mood axes. *)
Definition full_shape_ok (c : jval) : bool :=
  is_string (jget c "text")
  && is_number (jget (jget c "impact") "adventure")
  && is_number (jget (jget c "impact") "danger")
  && is_number (jget (jget c "impact") "romance")
  && is_number (jget (jget c "impact") "drama").

Definition spec_choices_valid (finalChoices : jval) : bool :=
  match finalChoices with
  | JArr l => Nat.eqb (List.length l) 4 && forallb full_shape_ok l
  | _ => false
  end.

(** A choice whose impact carries only the adventure axis. *)
Definition adventure_only_choice (t : string) : jval :=
  JObj [("text", JStr t); ("impact", JObj [("adventure", JNum (1#10))])].

(* ------------------------------------------------------------------------- *)
(** ** Retry with backoff ([isRateLimitError], [retryWithBackoff]) *)

(** Primitive property values of a rejection reason. *)
Inductive prim := PUndef | PNum (z : Z) | PStr (s : string).

Definition prim_truthy (v : prim) : bool :=
  match v with
  | PUndef => false
  | PNum z => negb (Z.eqb z 0)
  | PStr s => negb (String.eqb s "")
  end.

(** The [status], [code] and [message] properties of what a call rejects with. *)
Record RejectReason := mkReject {
  r_status : prim;
  r_code : prim;
  r_message : option string;
}.

Definition ascii_lower (c : Ascii.ascii) : Ascii.ascii :=
  let n := Ascii.nat_of_ascii c in
  if (Nat.leb 65 n && Nat.leb n 90)%bool then Ascii.ascii_of_nat (n + 32) else c.

Fixpoint toLowerCase (s : string) : string :=
  match s with
  | EmptyString => EmptyString
  | String c rest => String (ascii_lower c) (toLowerCase rest)
  end.

Definition includes (hay needle : string) : bool :=
  match index 0 needle hay with Some _ => true | None => false end.

Definition isRateLimitError (err : RejectReason) : bool :=
  let status := if prim_truthy (r_status err) then r_status err else r_code err in
  let message := toLowerCase (match r_message err with Some m => m | None => "" end) in
  match status with PNum 429 => true | _ => false end
  || match status with PStr "RESOURCE_EXHAUSTED" => true | _ => false end
  || includes message "rate"
  || includes message "quota"
  || includes message "too many requests"
  || includes message "429".

Inductive Outcome (A : Type) :=
  | Resolved (v : A)
  | Rejected (e : RejectReason).
Arguments Resolved {A} v.
Arguments Rejected {A} e.

(** [Math.floor(Math.random() * base)] for a draw [r] of [Math.random()]. *)
Definition jitter_of (base : Z) (r : Q) : Z := Qfloor (r * inject_Z base).

(** The [for (;;)] loop of [retryWithBackoff]: [call n] is the outcome of the
    [n]-th call of [fn], [random n] the [Math.random()] draw made before the
    [n]-th retry.  Returns the delays slept and the final outcome; [fuel]
    bounds the iterations ([None] when it runs out). *)
Fixpoint retry_loop {A} (fuel : nat) (retries base max : Z) (attempt : nat)
  (call : nat -> Outcome A) (random : nat -> Q) : option (list Z * Outcome A) :=
  match fuel with
  | O => None
  | S fuel' =>
      match call attempt with
      | Resolved v => Some ([], Resolved v)
      | Rejected err =>
          if negb (isRateLimitError err) || Z.leb retries (Z.of_nat attempt)
          then Some ([], Rejected err)
          else
            let jitter := jitter_of base (random attempt) in
            let delay := (Z.min max (base * 2 ^ Z.of_nat attempt) + jitter)%Z in
            match retry_loop fuel' retries base max (S attempt) call random with
            | Some (ds, r) => Some (delay :: ds, r)
            | None => None
            end
      end
  end.

(** [retryWithBackoff(fn)] with its defaults [retries = 3], [baseDelayMs = 250],
    [maxDelayMs = 1000]. *)
Definition retryWithBackoff {A} (call : nat -> Outcome A) (random : nat -> Q)
  : option (list Z * Outcome A) :=
  retry_loop 4 3 250 1000 0 call random.

(** Six panels of a reference page with their audio briefs, every brief
    carrying a stinger prompt, and audio services that always succeed. *)
Definition six_drafts : list PanelDraft :=
  map (fun n => mkDraft ("Panel " ++ n) ("Beat " ++ n)) ["1"; "2"; "3"; "4"; "5"; "6"].

Definition six_briefs : list PanelBrief :=
  map (fun n => mkBrief ("whoosh " ++ n) (Some ("boom " ++ n))) ["1"; "2"; "3"; "4"; "5"; "6"].

Definition page_services : Services :=
  mkServices (image_from_page (fun i _ => Some "panel-from-page") (fun _ => "panel"))
    (fun p => "blob:sfx/" ++ p) (fun p => "blob:stinger/" ++ p).

(* ------------------------------------------------------------------------- *)
(** ** Image request scheduler ([geminiService.ts], lines 4-59) *)

Module Scheduler.

Definition IMAGE_RPM_LIMIT : nat := 10.
Definition IMAGE_CONCURRENCY_LIMIT : nat := 3.
Definition ONE_MINUTE_MS : Z := 60000.

(** The module state: [imageQueue], [imageInFlight], [imageStartTimestamps].
    Tasks are named by numbers.  Two ghost fields record what the claims are
    about: [running], the tasks whose [run()] was started and whose promise
    has not settled, and [started], the time of every task start so far. *)
Record Sched := mkSched {
  imageQueue : list nat;
  imageInFlight : nat;
  imageStartTimestamps : list Z;
  running : list nat;
  started : list Z;
}.

Definition sched0 : Sched := mkSched [] 0 [] [] [].

(** [now - t < ONE_MINUTE_MS] *)
Definition recent (now t : Z) : bool := Z.ltb (now - t) ONE_MINUTE_MS.

(** [pruneOldStarts], at time [now] (the value of [Date.now()]). *)
Definition pruneOldStarts (now : Z) (st : Sched) : Sched :=
  mkSched (imageQueue st) (imageInFlight st)
    (filter (recent now) (imageStartTimestamps st)) (running st) (started st).

(** The test of [canStartMore], after its pruning. *)
Definition can_start (st : Sched) : bool :=
  Nat.ltb (imageInFlight st) IMAGE_CONCURRENCY_LIMIT
  && Nat.ltb (List.length (imageStartTimestamps st)) IMAGE_RPM_LIMIT.

(** The body of the [while] loop for the task [t] taken off the queue by
    [imageQueue.shift()]. *)
Definition start_task (now : Z) (t : nat) (rest : list nat) (st : Sched) : Sched :=
  mkSched rest (S (imageInFlight st)) (imageStartTimestamps st ++ [now])
    (t :: running st) (started st ++ [now]).

(** [while (canStartMore() && imageQueue.length > 0) { ... }]; each iteration
    removes a queued task, so the queue length bounds the iterations. *)
Fixpoint process_loop (fuel : nat) (now : Z) (st : Sched) : Sched :=
  let st1 := pruneOldStarts now st in
  match fuel with
  | O => st1
  | S f =>
      if can_start st1 then
        match imageQueue st1 with
        | [] => st1
        | t :: rest => process_loop f now (start_task now t rest st1)
        end
      else st1
  end.

(** [processImageQueue] at time [now] (one synchronous run).  The timer it
    may arm afterwards only causes a later call, modelled by [Timer]. *)
Definition processImageQueue (now : Z) (st : Sched) : Sched :=
  let st1 := process_loop (List.length (imageQueue st)) now (pruneOldStarts now st) in
  match imageQueue st1 with
  | [] => st1
  | _ => pruneOldStarts now st1
  end.

(** Removes the first occurrence of a task. *)
Fixpoint remove_first (t : nat) (l : list nat) : list nat :=
  match l with
  | [] => []
  | x :: r => if Nat.eqb x t then r else x :: remove_first t r
  end.

(** What can happen to the scheduler: [scheduleImageTask] is called
    ([Submit]); a timer armed by [scheduleNextTick] fires and runs
    [processImageQueue] ([Timer]; firing it at any time over-approximates the
    armed delays); a running task settles and its [.finally] callback runs
    [imageInFlight -= 1] ([Finish]; the timer it arms is a later [Timer]). *)
Inductive SchedEvent :=
  | Submit (t : nat)
  | Timer
  | Finish (t : nat).

Definition sched_step (now : Z) (ev : SchedEvent) (st : Sched) : Sched :=
  match ev with
  | Submit t =>
      processImageQueue now
        (mkSched (imageQueue st ++ [t]) (imageInFlight st)
           (imageStartTimestamps st) (running st) (started st))
  | Timer => processImageQueue now st
  | Finish t =>
      if existsb (Nat.eqb t) (running st)
      then mkSched (imageQueue st) (imageInFlight st - 1)
             (imageStartTimestamps st) (remove_first t (running st)) (started st)
      else st
  end.

(** A run: events stamped with the [Date.now()] value at which they happen. *)
Fixpoint run (st : Sched) (trace : list (Z * SchedEvent)) : Sched :=
  match trace with
  | [] => st
  | (now, ev) :: rest => run (sched_step now ev st) rest
  end.

(** The clock does not go backwards along a trace that starts at time [t0]. *)
Fixpoint chrono_from (t0 : Z) (trace : list (Z * SchedEvent)) : Prop :=
  match trace with
  | [] => True
  | (now, _) :: rest => (t0 <= now)%Z /\ chrono_from now rest
  end.

(** The number of task starts in the trailing 60-second window ending at [w],
    i.e. at times in [(w - 60000, w]]. *)
Definition window_count (w : Z) (starts : list Z) : nat :=
  List.length (filter (fun s => Z.ltb (w - ONE_MINUTE_MS) s && Z.leb s w) starts).

(** The invariant of a synchronous run of [processImageQueue] at time [now]:
    the in-flight counter counts the running tasks, at most
    [IMAGE_CONCURRENCY_LIMIT] of them; every start happened at or before
    [now]; the kept timestamps are exactly the starts of the last minute; and
    no trailing minute holds more than [IMAGE_RPM_LIMIT] starts. *)
Definition LoopInv (now : Z) (st : Sched) : Prop :=
  imageInFlight st = List.length (running st)
  /\ (List.length (running st) <= IMAGE_CONCURRENCY_LIMIT)%nat
  /\ Forall (fun s => s <= now)%Z (started st)
  /\ imageStartTimestamps st = filter (recent now) (started st)
  /\ (forall w, (window_count w (started st) <= IMAGE_RPM_LIMIT)%nat).

(** The invariant between events, the last of which happened at time [T]:
    as [LoopInv], relative to the time [p] of the last pruning. *)
Definition Inv (T : Z) (st : Sched) : Prop :=
  exists p, (p <= T)%Z
  /\ imageInFlight st = List.length (running st)
  /\ (List.length (running st) <= IMAGE_CONCURRENCY_LIMIT)%nat
  /\ Forall (fun s => s <= p)%Z (started st)
  /\ imageStartTimestamps st = filter (recent p) (started st)
  /\ (forall w, (window_count w (started st) <= IMAGE_RPM_LIMIT)%nat).

(** A sample run: four submissions at time 0 (the fourth waits for a free
    slot), a completion and its wake-up at 10 ms, and a timer a minute later. *)
Definition sample_trace : list (Z * SchedEvent) :=
  [(0, Submit 1); (0, Submit 2); (0, Submit 3); (0, Submit 4);
   (10, Finish 1); (10, Timer); (60000, Timer)]%Z.

(** The tasks handed to [scheduleImageTask] along a trace, in call order. *)
Fixpoint submitted (trace : list (Z * SchedEvent)) : list nat :=
  match trace with
  | [] => []
  | (_, Submit t) :: rest => t :: submitted rest
  | _ :: rest => submitted rest
  end.

End Scheduler.

(* ------------------------------------------------------------------------- *)
(** ** Loading a saved or a completed story ([loadingSavedStory] and
    [loadingCompletedStory], lines 322-415) *)

(** [assign({ error: msg })]: only the error changes. *)
Definition with_error (ctx : StoryContext) (msg : string) : StoryContext :=
  {| mood := mood ctx; theme := theme ctx; choices := choices ctx;
     allPanels := allPanels ctx; currentPanelIndex := currentPanelIndex ctx;
     characterReference := characterReference ctx;
     characterDescription := characterDescription ctx;
     isGenerating := isGenerating ctx; error := Some msg; ending := ending ctx;
     backgroundMusic := backgroundMusic ctx; isMuted := isMuted ctx;
     apiKey := apiKey ctx; elevenLabsApiKey := elevenLabsApiKey ctx;
     lastChoiceText := lastChoiceText ctx; npcs := npcs ctx |}.

(** A mood as read back from the store: a record written before an axis
    existed lacks it ([undefined]). *)
Record SavedMood := mkSavedMood {
  sm_adventure : option Q;
  sm_danger : option Q;
  sm_romance : option Q;
  sm_drama : option Q;
}.

(** A stored context: the fields of [StoryContext], where the mood axes and
    the [npcs] list may be missing. *)
Record SavedContext := mkSavedContext {
  sc_mood : SavedMood;
  sc_theme : option Theme;
  sc_choices : list Choice;
  sc_allPanels : list Panel;
  sc_currentPanelIndex : Z;
  sc_characterReference : option string;
  sc_characterDescription : option string;
  sc_isGenerating : bool;
  sc_error : option string;
  sc_ending : option MoodKey;
  sc_backgroundMusic : option string;
  sc_isMuted : bool;
  sc_apiKey : option string;
  sc_elevenLabsApiKey : option string;
  sc_lastChoiceText : option string;
  sc_npcs : option (list NPC);
}.

(** [{ value, context }], as the App writes it and [loadState] reads it back
    ([null] is [None] where a snapshot is optional). *)
Record Snapshot := mkSnapshot {
  snap_value : StateValue;
  snap_context : option SavedContext;
}.

(** A live context as it is written to the store: every field present. *)
Definition to_saved (ctx : StoryContext) : SavedContext :=
  {| sc_mood := mkSavedMood (Some (mv_adventure (mood ctx))) (Some (mv_danger (mood ctx)))
                  (Some (mv_romance (mood ctx))) (Some (mv_drama (mood ctx)));
     sc_theme := theme ctx; sc_choices := choices ctx;
     sc_allPanels := allPanels ctx; sc_currentPanelIndex := currentPanelIndex ctx;
     sc_characterReference := characterReference ctx;
     sc_characterDescription := characterDescription ctx;
     sc_isGenerating := isGenerating ctx; sc_error := error ctx; sc_ending := ending ctx;
     sc_backgroundMusic := backgroundMusic ctx; sc_isMuted := isMuted ctx;
     sc_apiKey := apiKey ctx; sc_elevenLabsApiKey := elevenLabsApiKey ctx;
     sc_lastChoiceText := lastChoiceText ctx; sc_npcs := Some (npcs ctx) |}.

(** The App's subscription ([src/types.ts], lines 99-110): every state but
    [idle] and [loadingSavedStory] is written, after a 150 ms debounce, so
    the snapshot that reaches the store is the one of the state the machine
    rests in. *)
Definition snapshot_of (s : StateValue) (ctx : StoryContext) : option Snapshot :=
  match s with
  | idle | loadingSavedStory => None
  | _ => Some (mkSnapshot s (Some (to_saved ctx)))
  end.

(** [({ ...p, narrativeAudio: undefined, soundEffectAudio: undefined })] *)
Definition clear_audio (p : Panel) : Panel :=
  {| image := image p; narrative := narrative p; narrativeAudio := None;
     soundEffectAudio := None; stingerAudio := stingerAudio p |}.

(** [x ?? d]; also [x || d] for an array [x], arrays being truthy. *)
Definition nullish {A} (x : option A) (d : A) : A :=
  match x with Some v => v | None => d end.

(** The action of the first [onDone] branch of [loadingSavedStory]. *)
Definition restore_saved (sc : SavedContext) : StoryContext :=
  {| mood := mkMood (nullish (sm_adventure (sc_mood sc)) (1#4))
               (nullish (sm_danger (sc_mood sc)) (1#4))
               (nullish (sm_romance (sc_mood sc)) (1#4))
               (nullish (sm_drama (sc_mood sc)) (1#4));
     theme := sc_theme sc; choices := sc_choices sc;
     allPanels := map clear_audio (sc_allPanels sc);
     currentPanelIndex := sc_currentPanelIndex sc;
     characterReference := sc_characterReference sc;
     characterDescription := sc_characterDescription sc;
     isGenerating := sc_isGenerating sc; error := sc_error sc; ending := sc_ending sc;
     backgroundMusic := sc_backgroundMusic sc; isMuted := sc_isMuted sc;
     apiKey := sc_apiKey sc; elevenLabsApiKey := sc_elevenLabsApiKey sc;
     lastChoiceText := sc_lastChoiceText sc; npcs := nullish (sc_npcs sc) [] |}.

(** Its guard: [!!(savedState && savedState.context && savedState.context.apiKey
    && savedState.context.elevenLabsApiKey)]. *)
Definition saved_guard (saved : option Snapshot) : bool :=
  match saved with
  | Some (mkSnapshot _ (Some sc)) =>
      str_truthy (sc_apiKey sc) && str_truthy (sc_elevenLabsApiKey sc)
  | _ => false
  end.

(** [loadingSavedStory.invoke.onDone]: the guarded branch to [playing] (the
    stored state value is not used), else [idle] with an error. *)
Definition load_saved_done (saved : option Snapshot) : StateValue * StoryContext :=
  if saved_guard saved then
    match saved with
    | Some (mkSnapshot _ (Some sc)) => (playing, restore_saved sc)
    | _ => (playing, initialContext)
    end
  else (idle, with_error initialContext "Saved story is missing API keys. Please start a new game.").

(** The action of the first [onDone] branch of [loadingCompletedStory].  The
    mood is taken as stored, without defaults: a stored mood lacking an axis
    yields a context holding [undefined] there, which [StoryContext] cannot
    represent ([None]). *)
Definition restore_completed (sc : SavedContext) : option StoryContext :=
  match sc_mood sc with
  | mkSavedMood (Some a) (Some d) (Some r) (Some dr) =>
      Some {| mood := mkMood a d r dr;
              theme := sc_theme sc; choices := sc_choices sc;
              allPanels := map clear_audio (sc_allPanels sc);
              currentPanelIndex := sc_currentPanelIndex sc;
              characterReference := sc_characterReference sc;
              characterDescription := sc_characterDescription sc;
              isGenerating := false; error := None; ending := sc_ending sc;
              backgroundMusic := sc_backgroundMusic sc; isMuted := sc_isMuted sc;
              apiKey := sc_apiKey sc; elevenLabsApiKey := sc_elevenLabsApiKey sc;
              lastChoiceText := sc_lastChoiceText sc; npcs := nullish (sc_npcs sc) [] |}
  | _ => None
  end.

(** [loadingCompletedStory.invoke.onDone], guarded by
    [!!(savedState && savedState.context)]. *)
Definition load_completed_done (saved : option Snapshot)
  : option (StateValue * StoryContext) :=
  match saved with
  | Some (mkSnapshot _ (Some sc)) =>
      match restore_completed sc with
      | Some c => Some (viewingPrevious, c)
      | None => None
      end
  | _ => Some (idle, with_error initialContext "No completed story found.")
  end.

(** The events of the whole machine: those of [transition], and the outcome
    of the promise a loading state invokes ([loadState] or
    [loadCompletedState]), which resolves with a snapshot or [null] or
    rejects. *)
Inductive MachineEvent :=
  | UserEvent (e : Event)
  | LoadDone (saved : option Snapshot)
  | LoadFailed.

(** One step of the whole machine; [None] only in the case
    [restore_completed] cannot represent. *)
Definition machine_step (s : StateValue) (ctx : StoryContext) (ev : MachineEvent)
  : option (StateValue * StoryContext) :=
  match ev, s with
  | UserEvent e, _ => Some (transition s ctx e)
  | LoadDone saved, loadingSavedStory => Some (load_saved_done saved)
  | LoadDone saved, loadingCompletedStory => load_completed_done saved
  | LoadFailed, loadingSavedStory =>
      Some (idle, with_error ctx "Failed to load saved story. Please start a new game.")
  | LoadFailed, loadingCompletedStory =>
      Some (idle, with_error ctx "Failed to load the completed story.")
  | _, _ => Some (s, ctx)
  end.

Fixpoint machine_run (s : StateValue) (ctx : StoryContext) (evs : list MachineEvent)
  : option (StateValue * StoryContext) :=
  match evs with
  | [] => Some (s, ctx)
  | ev :: rest =>
      match machine_step s ctx ev with
      | Some (s', ctx') => machine_run s' ctx' rest
      | None => None
      end
  end.

(* ------------------------------------------------------------------------- *)
(** ** The storage service ([src/unnamed/part_002]: [saveState], [loadState]) *)

(** The two IndexedDB object stores: the [currentState] record and the
    [backgroundMusic] asset (a blob, modelled by its content). *)
Record Store := mkStore {
  currentState : option Snapshot;
  backgroundMusicBlob : option string;
}.

Definition with_music (sc : SavedContext) (url : string) : SavedContext :=
  {| sc_mood := sc_mood sc; sc_theme := sc_theme sc; sc_choices := sc_choices sc;
     sc_allPanels := sc_allPanels sc; sc_currentPanelIndex := sc_currentPanelIndex sc;
     sc_characterReference := sc_characterReference sc;
     sc_characterDescription := sc_characterDescription sc;
     sc_isGenerating := sc_isGenerating sc; sc_error := sc_error sc;
     sc_ending := sc_ending sc; sc_backgroundMusic := Some url;
     sc_isMuted := sc_isMuted sc; sc_apiKey := sc_apiKey sc;
     sc_elevenLabsApiKey := sc_elevenLabsApiKey sc;
     sc_lastChoiceText := sc_lastChoiceText sc; sc_npcs := sc_npcs sc |}.

(** [saveState(state)]: the record is replaced, then
    [saveBackgroundMusicFromUrl(state?.context?.backgroundMusic)] stores the
    blob fetched from a truthy URL ([fetch_blob url]; [None] when the fetch
    fails or is not ok, which is ignored), keeping the stored blob
    otherwise. *)
Definition saveState (fetch_blob : string -> option string) (snap : Snapshot)
  (db : Store) : Store :=
  let fetched :=
    match snap_context snap with
    | Some sc =>
        match sc_backgroundMusic sc with
        | Some url => if String.eqb url "" then None else fetch_blob url
        | None => None
        end
    | None => None
    end in
  mkStore (Some snap)
    (match fetched with Some b => Some b | None => backgroundMusicBlob db end).

(** [loadState()]: the stored record or [null]; a stored music blob is
    rehydrated into a fresh object URL ([createObjectURL blob]) that replaces
    the context's [backgroundMusic]. *)
Definition loadState (createObjectURL : string -> string) (db : Store)
  : option Snapshot :=
  match currentState db with
  | None => None
  | Some snap =>
      match backgroundMusicBlob db, snap_context snap with
      | Some b, Some sc =>
          Some (mkSnapshot (snap_value snap) (Some (with_music sc (createObjectURL b))))
      | _, _ => Some snap
      end
  end.

(** A context as [CONTINUE] resumes it: the panels without their narration
    and sound-effect audio, and the given background music. *)
Definition resumed (ctx : StoryContext) (music : option string) : StoryContext :=
  {| mood := mood ctx; theme := theme ctx; choices := choices ctx;
     allPanels := map clear_audio (allPanels ctx);
     currentPanelIndex := currentPanelIndex ctx;
     characterReference := characterReference ctx;
     characterDescription := characterDescription ctx;
     isGenerating := isGenerating ctx; error := error ctx; ending := ending ctx;
     backgroundMusic := music; isMuted := isMuted ctx;
     apiKey := apiKey ctx; elevenLabsApiKey := elevenLabsApiKey ctx;
     lastChoiceText := lastChoiceText ctx; npcs := npcs ctx |}.

(* ------------------------------------------------------------------------- *)
(** ** The first requests of the generation actors *)

(** [s || ''] for an optional string. *)
Definition or_empty (s : option string) : string :=
  match s with Some x => x | None => "" end.

(** [dominantMood] of [generateEnding] (lines 246-247): the recorded
    [ending], or else
    [reduce((best, key) => mood[key] > mood[best] ? key : best, 'adventure')]
    over the four keys. *)
Definition dominantMood (e : option MoodKey) (m : MoodVector) : MoodKey :=
  match e with
  | Some k => k
  | None =>
      fold_left (fun best key => if Q_gt (mood_get m key) (mood_get m best) then key else best)
        [adventure; danger; romance; drama] adventure
  end.

(** The position of a key in [['adventure', 'danger', 'romance', 'drama']]. *)
Definition key_rank (k : MoodKey) : nat :=
  match k with adventure => 0 | danger => 1 | romance => 2 | drama => 3 end%nat.

(** The arguments of the first service call of [generateEnding]:
    [generateEndingChapter(apiKey, theme, mood, allPanels, charDesc, dominantMood)]. *)
Record EndingRequest := mkEndingRequest {
  er_theme : Theme;
  er_mood : MoodVector;
  er_previousPanels : list Panel;
  er_characterDescription : string;
  er_dominantMood : MoodKey;
}.

(** [generateEnding] up to its first call: the message it throws, or the
    call it issues. *)
Definition generateEnding_request (input : StoryContext) : string + EndingRequest :=
  if str_truthy (apiKey input) && str_truthy (elevenLabsApiKey input) then
    match theme input with
    | Some t =>
        inr {| er_theme := t; er_mood := mood input;
               er_previousPanels := allPanels input;
               er_characterDescription := or_empty (characterDescription input);
               er_dominantMood := dominantMood (ending input) (mood input) |}
    | None => inl "API keys and theme are required for ending generation."
    end
  else inl "API keys and theme are required for ending generation.".











(* ------------------------------------------------------------------------- *)
(** ** Image responses ([generatePanelImage], [generateChapterImagesBatch],
    [generatePanelImageFromPageRef]) *)

(** A part of a [generateContent] response: [part.inlineData.data] and
    [part.text]. *)
Record Part := mkPart {
  inlineData : option string;
  part_text : option string;
}.

(** [response.candidates] (an absent or non-array value reads as [[]]), each
    candidate with its [content.parts] ([None] when absent), and
    [response.text]. *)
Record Response := mkResponse {
  candidates : list (option (list Part));
  response_text : option string;
}.

Definition candidate_parts (c : option (list Part)) : list Part :=
  match c with Some ps => ps | None => [] end.

(** The collection loop of [generateChapterImagesBatch]. *)
Definition collect_images (resp : Response) : list string :=
  fold_left (fun images c =>
      fold_left (fun images p =>
          if str_truthy (inlineData p) then (images ++ [or_empty (inlineData p)])%list
          else images)
        (candidate_parts c) images)
    (candidates resp) [].

Inductive ImageError :=
  | ApiKeyRequired
  | NoPanelDescriptions
  | CountMismatch (got expected : nat)
  | NoImage (details : string).

(** [generateChapterImagesBatch] around its request: the argument checks,
    then the images of the response, of which there must be one per
    description.  (A rejected request is a rejection of the scheduled call.) *)
Definition generateChapterImagesBatch_result (apiKey : string)
  (panelDescriptions : list string) (resp : Response) : ImageError + list string :=
  if String.eqb apiKey "" then inl ApiKeyRequired
  else match panelDescriptions with
       | [] => inl NoPanelDescriptions
       | _ =>
           let images := collect_images resp in
           if Nat.eqb (List.length images) (List.length panelDescriptions) then inr images
           else inl (CountMismatch (List.length images) (List.length panelDescriptions))
       end.

(** The return loops of [generatePanelImage] and [generatePanelImageFromPageRef]:
    the first truthy [inlineData.data]. *)
Fixpoint first_in_parts (ps : list Part) : option string :=
  match ps with
  | [] => None
  | p :: rest => if str_truthy (inlineData p) then inlineData p else first_in_parts rest
  end.

Fixpoint first_image (cands : list (option (list Part))) : option string :=
  match cands with
  | [] => None
  | c :: rest =>
      match first_in_parts (candidate_parts c) with
      | Some d => Some d
      | None => first_image rest
      end
  end.

(** [generatePanelImage] around its request; [NoImage] carries the
    [Details:] of its error message. *)
Definition generatePanelImage_result (apiKey : string) (resp : Response)
  : ImageError + string :=
  if String.eqb apiKey "" then inl ApiKeyRequired
  else match first_image (candidates resp) with
       | Some d => inr d
       | None =>
           inl (NoImage (match response_text resp with
                         | Some t => t
                         | None => "[no text payload]"
                         end))
       end.




(* ------------------------------------------------------------------------- *)
(** ** Navigation buttons ([src/components/Navigation.tsx], lines 23-24) *)

(** [canGoNext = currentPanelIndex < totalPanels - 1] *)
Definition canGoNext (ctx : StoryContext) : bool :=
  Z.ltb (currentPanelIndex ctx) (panelCount ctx - 1).

(** [canGoPrev = currentPanelIndex > 0] *)
Definition canGoPrev (ctx : StoryContext) : bool :=
  Z.ltb 0 (currentPanelIndex ctx).

(* ------------------------------------------------------------------------- *)
(** ** Sample inputs *)

Definition sample_events : list Event :=
  [START fantasy "gemini-key" "elevenlabs-key";
   DoneGenerateChapter (mkGenOut [] [] None None None []);
   MAKE_CHOICE (mkChoice "Charge" (mkMood 1 0 0 0))].


Definition generating_ctx : StoryContext :=
  with_index (start_context fantasy "gemini-key" "elevenlabs-key") 0.

Definition two_image_response : Response :=
  mkResponse [Some [mkPart (Some "img-1") None; mkPart (Some "") (Some "caption")];
              None; Some [mkPart (Some "img-2") None]] None.

Definition keyless_saved : SavedContext :=
  mkSavedContext (mkSavedMood (Some 1) (Some (1#4)) (Some (1#4)) (Some (1#4)))
    (Some fantasy) [] [mkPanel "img" "The end." (Some "blob:vo") (Some "blob:sfx") None]
    0 None None true (Some "stale error") (Some adventure) None false None None None None.

(* ========================================================================= *)
(** * Properties *)

(** ** Mood arithmetic *)

Lemma Math_min_1_le (x : Q) : Math_min 1 x <= 1.
Proof.
  unfold Math_min. destruct (Qle_bool 1 x) eqn:E.
  - apply Qle_refl.
  - apply Qlt_le_weak, Qnot_le_lt. intro H. apply Qle_bool_iff in H. congruence.
Qed.

Lemma Math_min_1_reaches (x : Q) : Qle_bool 1 (Math_min 1 x) = Qle_bool 1 x.
Proof.
  unfold Math_min. destruct (Qle_bool 1 x) eqn:E; [reflexivity | exact E].
Qed.

Lemma Math_min_1_nonneg (x : Q) : Qle_bool 0 (Math_min 1 x) = Qle_bool 0 x.
Proof.
  unfold Math_min. destruct (Qle_bool 1 x) eqn:E; [|reflexivity].
  apply Qle_bool_iff in E. symmetry. apply Qle_bool_iff.
  apply Qle_trans with 1; [discriminate | exact E].
Qed.

Lemma make_choice_mood (ctx : StoryContext) (c : Choice) :
  mood (snd (transition playing ctx (MAKE_CHOICE c))) = applied_mood (mood ctx) (impact c).
Proof. simpl. destruct (ending_guard (mood ctx) (impact c)); reflexivity. Qed.

Lemma applied_mood_get (m i : MoodVector) (k : MoodKey) :
  mood_get (applied_mood m i) k = Math_min 1 (mood_get m k + mood_get i k).
Proof. destruct k; reflexivity. Qed.

(** The target of [MAKE_CHOICE] in [playing] is [endingGenerating] exactly
    when some post-impact axis reaches 1. *)
Lemma make_choice_target (ctx : StoryContext) (c : Choice) :
  fst (transition playing ctx (MAKE_CHOICE c)) =
  if existsb (fun k => Qle_bool 1 (mood_get (applied_mood (mood ctx) (impact c)) k))
       [adventure; danger; romance; drama]
  then endingGenerating else generating.
Proof.
  unfold transition, ending_guard. simpl existsb.
  rewrite !Math_min_1_reaches, orb_false_r.
  destruct (Qle_bool 1 (mv_adventure (mood ctx) + mv_adventure (impact c))),
    (Qle_bool 1 (mv_danger (mood ctx) + mv_danger (impact c))),
    (Qle_bool 1 (mv_romance (mood ctx) + mv_romance (impact c))),
    (Qle_bool 1 (mv_drama (mood ctx) + mv_drama (impact c))); reflexivity.
Qed.

(** The example of the spec: from the initial mood, impact 0.8 on adventure
    saturates adventure at 1 and records [adventure]. *)
Lemma make_choice_initial_example :
  let c := mkChoice "Charge" (mkMood (4#5) 0 0 0) in
  let '(s', ctx') := transition playing (ctx_with_mood (mood initialContext)) (MAKE_CHOICE c) in
  s' = endingGenerating /\ mv_adventure (mood ctx') = 1 /\ ending ctx' = Some adventure.
Proof. vm_compute. repeat split. Qed.

(** C1 (code bug).  When two axes tie for the maximum post-impact value, the
    reducer [newMood[a] > newMood[b] ? a : b] keeps the LATER key: from mood
    {0.5, 0.5, 0.25, 0.25} and impact {0.5, 0.5, 0, 0} the machine enters
    [endingGenerating] with adventure = danger = 1 and records [danger], not
    the first tied axis [adventure]. *)
Theorem C1_tie_records_last_axis :
  let ctx := ctx_with_mood (mkMood (1#2) (1#2) (1#4) (1#4)) in
  let c := mkChoice "Storm the keep" (mkMood (1#2) (1#2) 0 0) in
  let '(s', ctx') := transition playing ctx (MAKE_CHOICE c) in
  s' = endingGenerating /\ mv_adventure (mood ctx') == 1 /\ mv_danger (mood ctx') == 1
  /\ ending ctx' = Some danger.
Proof. vm_compute. repeat split; reflexivity. Qed.

(** C2 (counterexample).  A negative impact is not clamped at 0: from the
    initial mood an impact of -0.5 on adventure gives adventure = -0.25,
    which differs from clamp(0.25 - 0.5, 0, 1) = 0 and lies outside [0, 1]. *)
Lemma C2_negative_impact_unclamped :
  let c := mkChoice "Retreat" (mkMood (Qmake (-1) 2) 0 0 0) in
  let '(_, ctx') := transition playing (ctx_with_mood (mood initialContext)) (MAKE_CHOICE c) in
  mv_adventure (mood ctx') == Qmake (-1) 4
  /\ ~ (mv_adventure (mood ctx') == clamp01 ((1#4) + Qmake (-1) 2))
  /\ ~ (0 <= mv_adventure (mood ctx')).
Proof.
  vm_compute. split; [reflexivity | split; intro H; [discriminate | apply H; reflexivity]].
Qed.

(** C2 (amended).  On [MAKE_CHOICE] in [playing], on either branch, each axis
    becomes [min(1, old + impact)]: it is at most 1, and it is non-negative
    exactly when [old + impact] is. *)
Theorem C2_mood_update_upper_clamp (ctx : StoryContext) (c : Choice) (k : MoodKey) :
  let m' := mood (snd (transition playing ctx (MAKE_CHOICE c))) in
  mood_get m' k = Math_min 1 (mood_get (mood ctx) k + mood_get (impact c) k)
  /\ mood_get m' k <= 1
  /\ Qle_bool 0 (mood_get m' k) = Qle_bool 0 (mood_get (mood ctx) k + mood_get (impact c) k).
Proof.
  cbv zeta. rewrite make_choice_mood, applied_mood_get.
  split; [reflexivity | split; [apply Math_min_1_le | apply Math_min_1_nonneg]].
Qed.

(** ** Actor completion and failure *)

(** A chapter failure returns to [playing], clears the generation flag and
    attaches the error message, leaving everything else untouched; a chapter
    success clears the flag too. *)
Lemma chapter_failure_sets_error (ctx : StoryContext) (e : ActorError) :
  transition generating ctx (ErrorGenerateChapter e) = (playing, chapter_error ctx e)
  /\ isGenerating (chapter_error ctx e) = false
  /\ error (chapter_error ctx e) = Some (error_message e)
  /\ allPanels (chapter_error ctx e) = allPanels ctx
  /\ mood (chapter_error ctx e) = mood ctx
  /\ choices (chapter_error ctx e) = choices ctx
  /\ npcs (chapter_error ctx e) = npcs ctx
  /\ characterDescription (chapter_error ctx e) = characterDescription ctx
  /\ characterReference (chapter_error ctx e) = characterReference ctx.
Proof. repeat split. Qed.

Lemma chapter_success_clears_flag (ctx : StoryContext) (o : GenerationOutput) :
  transition generating ctx (DoneGenerateChapter o) = (playing, chapter_done ctx o)
  /\ isGenerating (chapter_done ctx o) = false.
Proof. split; reflexivity. Qed.

(** C5 (code bug).  An ending failure returns to [playing] and clears the
    generation flag but attaches no error message: [error] keeps its previous
    value (so it stays [null] when there was none), unlike the chapter
    failure path above. *)
Theorem C5_ending_failure_sets_no_error (ctx : StoryContext) (e : ActorError) :
  transition endingGenerating ctx (ErrorGenerateEnding e) = (playing, ending_error ctx)
  /\ isGenerating (ending_error ctx) = false
  /\ error (ending_error ctx) = error ctx.
Proof. repeat split. Qed.

(** ** Navigation *)

(** C9 (counterexample).  With no panels the range [0, panelCount - 1] is
    empty: after [START] and a [VIEW_NEXT] in [generating] the index is 0,
    which exceeds [panelCount - 1 = -1]. *)
Lemma C9_no_panels_index_exceeds_range :
  let '(s1, ctx1) := transition idle initialContext (START fantasy "gemini-key" "elevenlabs-key") in
  let '(s2, ctx2) := transition s1 ctx1 VIEW_NEXT in
  s2 = generating /\ panelCount ctx2 = 0%Z /\ currentPanelIndex ctx2 = 0%Z
  /\ (currentPanelIndex ctx2 > panelCount ctx2 - 1)%Z.
Proof. vm_compute. repeat split. Qed.

(** C9 (amended).  In every active state, when there is at least one panel
    and the index lies in [[0, panelCount]], [VIEW_PREV] and [VIEW_NEXT] set
    the index to [clamp(i - 1, 0, n - 1)] and [clamp(i + 1, 0, n - 1)], which
    lie in [[0, n - 1]]; the state does not change. *)
Theorem C9_navigation_clamped (s : StateValue) (ctx : StoryContext)
  (Hs : active s = true) (Hn : (1 <= panelCount ctx)%Z)
  (Hi : (0 <= currentPanelIndex ctx <= panelCount ctx)%Z) :
  let n := panelCount ctx in
  let i := currentPanelIndex ctx in
  transition s ctx VIEW_PREV = (s, with_index ctx (clamp_index n (i - 1)))
  /\ transition s ctx VIEW_NEXT = (s, with_index ctx (clamp_index n (i + 1)))
  /\ (0 <= clamp_index n (i - 1) <= n - 1)%Z
  /\ (0 <= clamp_index n (i + 1) <= n - 1)%Z.
Proof.
  cbv zeta. unfold clamp_index.
  split; [|split; [|split; lia]];
    destruct s; try discriminate; cbn [transition];
    unfold view_prev, view_next_guarded, view_next_plain; do 2 f_equal; lia.
Qed.

Lemma C9_navigation_clamped_witness :
  let ctx := with_index (chapter_done (start_context fantasy "k" "e")
                 (mkGenOut [mkPanel "img" "Once" None None None] [] None None None [])) 0 in
  active playing = true /\ (1 <= panelCount ctx)%Z
  /\ (0 <= currentPanelIndex ctx <= panelCount ctx)%Z
  /\ transition playing ctx VIEW_NEXT
     = (playing, with_index ctx (clamp_index (panelCount ctx) (currentPanelIndex ctx + 1))).
Proof.
  cbv zeta.
  assert (Hn : (1 <= panelCount (with_index (chapter_done (start_context fantasy "k" "e")
                 (mkGenOut [mkPanel "img" "Once" None None None] [] None None None [])) 0))%Z)
    by (vm_compute; discriminate).
  assert (Hi : (0 <= currentPanelIndex (with_index (chapter_done (start_context fantasy "k" "e")
                 (mkGenOut [mkPanel "img" "Once" None None None] [] None None None [])) 0)
                <= panelCount (with_index (chapter_done (start_context fantasy "k" "e")
                 (mkGenOut [mkPanel "img" "Once" None None None] [] None None None [])) 0))%Z)
    by (vm_compute; split; discriminate).
  split; [reflexivity | split; [exact Hn | split; [exact Hi |]]].
  exact (proj1 (proj2 (C9_navigation_clamped playing _ eq_refl Hn Hi))).
Defined.

(** ** NPC resolution and the roster *)

Lemma resolve_npc_found (roster : list NPC) (gen : string -> string) (npc : NewNpc) (ex : NPC) :
  find_npc roster npc = Some ex -> resolve_npc roster gen npc = (ex, []).
Proof. intro H. unfold resolve_npc. rewrite H. reflexivity. Qed.

Lemma createdOrReusedNpcs_fst (roster : list NPC) (gen : string -> string) (news : list NewNpc) :
  fst (createdOrReusedNpcs roster gen news) = map (fun n => fst (resolve_npc roster gen n)) news.
Proof. destruct news; [reflexivity|]. simpl. rewrite map_map. reflexivity. Qed.

Lemma createdOrReusedNpcs_calls (roster : list NPC) (gen : string -> string)
  (news : list NewNpc) (c : NewNpc) :
  In c (snd (createdOrReusedNpcs roster gen news)) -> In c news /\ find_npc roster c = None.
Proof.
  destruct news as [|n0 rest]; [contradiction|].
  cbn [createdOrReusedNpcs snd]. intro H.
  apply in_flat_map in H. destruct H as [x [Hx Hc]].
  apply in_map_iff in Hx. destruct Hx as [y [<- Hy]].
  unfold resolve_npc in Hc. destruct (find_npc roster y) eqn:E.
  - contradiction.
  - destruct Hc as [<- | []]. split; assumption.
Qed.

(** C8.  For a new character whose exact (name, description) pair is already
    in the roster, the existing roster entry (with its cached portrait) is
    what the pipeline yields at that position, and no portrait generation
    call is issued for that character. *)
Theorem C8_rostered_npc_reused (roster : list NPC) (gen : string -> string)
  (news : list NewNpc) (i : nat) (npc : NewNpc) (ex : NPC)
  (Hi : nth_error news i = Some npc) (Hf : find_npc roster npc = Some ex) :
  nth_error (fst (createdOrReusedNpcs roster gen news)) i = Some ex
  /\ ~ In npc (snd (createdOrReusedNpcs roster gen news)).
Proof.
  split.
  - rewrite createdOrReusedNpcs_fst, nth_error_map, Hi. simpl.
    rewrite (resolve_npc_found _ _ _ _ Hf). reflexivity.
  - intro H. apply createdOrReusedNpcs_calls in H. destruct H as [_ H]. congruence.
Qed.

Lemma C8_rostered_npc_reused_witness :
  let roster := [mkNPC "Mira" "silver-haired smuggler" "portrait-mira"] in
  let news := [mkNewNpc "Mira" "silver-haired smuggler"; mkNewNpc "Tor" "old blacksmith"] in
  nth_error news 0 = Some (mkNewNpc "Mira" "silver-haired smuggler")
  /\ find_npc roster (mkNewNpc "Mira" "silver-haired smuggler")
     = Some (mkNPC "Mira" "silver-haired smuggler" "portrait-mira")
  /\ nth_error (fst (createdOrReusedNpcs roster (fun p => "img:" ++ p) news)) 0
     = Some (mkNPC "Mira" "silver-haired smuggler" "portrait-mira")
  /\ ~ In (mkNewNpc "Mira" "silver-haired smuggler")
        (snd (createdOrReusedNpcs roster (fun p => "img:" ++ p) news)).
Proof.
  cbv zeta.
  assert (Hi : nth_error [mkNewNpc "Mira" "silver-haired smuggler"; mkNewNpc "Tor" "old blacksmith"] 0
               = Some (mkNewNpc "Mira" "silver-haired smuggler")) by reflexivity.
  assert (Hf : find_npc [mkNPC "Mira" "silver-haired smuggler" "portrait-mira"]
                 (mkNewNpc "Mira" "silver-haired smuggler")
               = Some (mkNPC "Mira" "silver-haired smuggler" "portrait-mira")) by reflexivity.
  split; [exact Hi | split; [exact Hf |]].
  exact (C8_rostered_npc_reused _ (fun p => "img:" ++ p) _ 0 _ _ Hi Hf).
Defined.

Lemma count_pair_app (npc : NewNpc) (l1 l2 : list NPC) :
  count_pair npc (l1 ++ l2) = (count_pair npc l1 + count_pair npc l2)%nat.
Proof. unfold count_pair. rewrite filter_app, length_app. reflexivity. Qed.

Lemma count_pair_pos (npc : NewNpc) (l : list NPC) (x : NPC) :
  In x l ->
  String.eqb (npc_name x) (nn_name npc) && String.eqb (npc_description x) (nn_description npc) = true ->
  (1 <= count_pair npc l)%nat.
Proof.
  intros Hin Hx. unfold count_pair.
  assert (Hf : In x (filter (fun n => String.eqb (npc_name n) (nn_name npc)
                              && String.eqb (npc_description n) (nn_description npc)) l))
    by (apply filter_In; split; assumption).
  destruct (filter _ l); [contradiction | simpl; lia].
Qed.

(** C10.  On a successful chapter the roster becomes the previous roster
    followed by the pipeline's [newNpcs], which has one entry per character
    named by the story call, reused ones included; so a new character whose
    (name, description) pair is already rostered appears at least twice. *)
Theorem C10_roster_not_deduplicated (ctx : StoryContext) (gen : string -> string)
  (news : list NewNpc) (npc : NewNpc) (ex : NPC) (o : GenerationOutput)
  (Hin : In npc news) (Hf : find_npc (npcs ctx) npc = Some ex)
  (Ho : newNpcs o = fst (createdOrReusedNpcs (npcs ctx) gen news)) :
  let '(s', ctx') := transition generating ctx (DoneGenerateChapter o) in
  s' = playing
  /\ npcs ctx' = (npcs ctx ++ newNpcs o)%list
  /\ List.length (newNpcs o) = List.length news
  /\ (2 <= count_pair npc (npcs ctx'))%nat.
Proof.
  cbn [transition]. unfold chapter_done. cbn [npcs].
  pose proof (find_some _ _ Hf) as [Hex Hpred].
  split; [reflexivity | split; [reflexivity | split]].
  - rewrite Ho, createdOrReusedNpcs_fst, length_map. reflexivity.
  - rewrite count_pair_app.
    assert (H1 := count_pair_pos npc (npcs ctx) ex Hex Hpred).
    assert (Hout : In ex (newNpcs o)).
    { rewrite Ho, createdOrReusedNpcs_fst. apply in_map_iff. exists npc. split; [|exact Hin].
      rewrite (resolve_npc_found _ _ _ _ Hf). reflexivity. }
    assert (H2 := count_pair_pos npc (newNpcs o) ex Hout Hpred). lia.
Qed.

Lemma C10_roster_not_deduplicated_witness :
  let mira := mkNPC "Mira" "silver-haired smuggler" "portrait-mira" in
  let ctx := chapter_done (start_context fantasy "k" "e") (mkGenOut [] [] None None None [mira]) in
  let gen := fun p => "img:" ++ p in
  let news := [mkNewNpc "Mira" "silver-haired smuggler"] in
  let o := mkGenOut [] [] None None None (fst (createdOrReusedNpcs (npcs ctx) gen news)) in
  In (mkNewNpc "Mira" "silver-haired smuggler") news
  /\ find_npc (npcs ctx) (mkNewNpc "Mira" "silver-haired smuggler") = Some mira
  /\ count_pair (mkNewNpc "Mira" "silver-haired smuggler")
       (npcs (snd (transition generating ctx (DoneGenerateChapter o)))) = 2%nat.
Proof.
  cbv zeta.
  assert (Hin : In (mkNewNpc "Mira" "silver-haired smuggler") [mkNewNpc "Mira" "silver-haired smuggler"])
    by (left; reflexivity).
  assert (Hf : find_npc (npcs (chapter_done (start_context fantasy "k" "e")
                 (mkGenOut [] [] None None None [mkNPC "Mira" "silver-haired smuggler" "portrait-mira"])))
                 (mkNewNpc "Mira" "silver-haired smuggler")
               = Some (mkNPC "Mira" "silver-haired smuggler" "portrait-mira")) by reflexivity.
  pose proof (C10_roster_not_deduplicated _ (fun p => "img:" ++ p) _ _ _
                (mkGenOut [] [] None None None
                   (fst (createdOrReusedNpcs
                      (npcs (chapter_done (start_context fantasy "k" "e")
                         (mkGenOut [] [] None None None [mkNPC "Mira" "silver-haired smuggler" "portrait-mira"])))
                      (fun p => "img:" ++ p) [mkNewNpc "Mira" "silver-haired smuggler"])))
                Hin Hf eq_refl) as _.
  split; [exact Hin | split; [exact Hf | reflexivity]].
Defined.

(** ** Retry with backoff *)

Lemma jitter_bounds (r : Q) : 0 <= r < 1 -> (0 <= jitter_of 250 r < 250)%Z.
Proof.
  intros [H0 H1]. unfold jitter_of. split.
  - change 0%Z with (Qfloor 0). apply Qfloor_resp_le.
    apply Qmult_le_0_compat; [exact H0 | discriminate].
  - rewrite Zlt_Qlt. apply Qle_lt_trans with (r * inject_Z 250); [apply Qfloor_le|].
    apply Qlt_le_trans with (1 * inject_Z 250).
    + apply Qmult_lt_compat_r; [reflexivity | exact H1].
    + apply Qle_refl.
Qed.

(** The loop from attempt [attempt] (at most 3) with enough fuel: it ends,
    every retry follows a rate-limit failure and waits
    [min(1000, 250 * 2^n)] plus a jitter in [[0, 250)], and it stops at the
    first success, the first other failure, or when attempt 3 fails. *)
Lemma retry_loop_spec {A} (fuel attempt : nat) (call : nat -> Outcome A) (random : nat -> Q)
  (Hr : forall n, 0 <= random n < 1) (Ha : (attempt <= 3)%nat) (Hf : (3 - attempt < fuel)%nat) :
  exists ds r,
    retry_loop fuel 3 250 1000 attempt call random = Some (ds, r)
    /\ (attempt + List.length ds <= 3)%nat
    /\ r = call (attempt + List.length ds)%nat
    /\ (forall n, (n < List.length ds)%nat ->
          exists e, call (attempt + n)%nat = Rejected e /\ isRateLimitError e = true)
    /\ (forall n d, nth_error ds n = Some d ->
          exists j, d = (Z.min 1000 (250 * 2 ^ Z.of_nat (attempt + n)) + j)%Z
                    /\ (0 <= j < 250)%Z)
    /\ (forall e, r = Rejected e -> isRateLimitError e = false \/ (attempt + List.length ds = 3)%nat).
Proof.
  revert attempt Ha Hf. induction fuel as [|fuel IH]; intros attempt Ha Hf; [lia|].
  cbn [retry_loop]. destruct (call attempt) as [v|e] eqn:Ec.
  - exists [], (Resolved v). rewrite Nat.add_0_r.
    refine (conj eq_refl (conj _ (conj (eq_sym Ec) (conj _ (conj _ _))))).
    + lia.
    + intros n Hn. simpl in Hn. lia.
    + intros n d Hd. destruct n; discriminate.
    + intros e' He'. discriminate.
  - destruct (isRateLimitError e) eqn:Erl; simpl negb; cbn [orb].
    + destruct (Z.leb 3 (Z.of_nat attempt)) eqn:Ele.
      * exists [], (Rejected e). rewrite Nat.add_0_r. apply Z.leb_le in Ele.
        refine (conj eq_refl (conj _ (conj (eq_sym Ec) (conj _ (conj _ _))))).
        -- lia.
        -- intros n Hn. simpl in Hn. lia.
        -- intros n d Hd. destruct n; discriminate.
        -- intros e' _. right. lia.
      * apply Z.leb_gt in Ele.
        destruct (IH (S attempt)) as (ds & r & Hrun & Hlen & Hres & Hrl & Hd & Hend); [lia | lia |].
        rewrite Hrun.
        exists ((Z.min 1000 (250 * 2 ^ Z.of_nat attempt) + jitter_of 250 (random attempt))%Z :: ds), r.
        cbn [List.length]. split; [reflexivity|].
        split; [lia|]. split; [rewrite Hres; f_equal; lia|]. split; [|split].
        -- intros n Hn. destruct n as [|n].
           ++ exists e. rewrite Nat.add_0_r. split; assumption.
           ++ destruct (Hrl n) as [e' [He' He'rl]]; [lia|].
              exists e'. split; [|exact He'rl]. rewrite <- He'. f_equal. lia.
        -- intros n d Hnd. destruct n as [|n].
           ++ injection Hnd as <-. exists (jitter_of 250 (random attempt)).
              rewrite Nat.add_0_r. split; [reflexivity | apply jitter_bounds, Hr].
           ++ destruct (Hd n d Hnd) as [j [Hj Hjb]]. exists j. split; [|exact Hjb].
              rewrite Hj. do 4 f_equal. lia.
        -- intros e' He'. destruct (Hend e' He') as [H|H]; [left; exact H | right; lia].
    + exists [], (Rejected e). rewrite Nat.add_0_r.
      refine (conj eq_refl (conj _ (conj (eq_sym Ec) (conj _ (conj _ _))))).
      * lia.
      * intros n Hn. simpl in Hn. lia.
      * intros n d Hd. destruct n; discriminate.
      * intros e' He'. injection He' as <-. left. exact Erl.
Qed.

(** C7.  [retryWithBackoff] with its defaults: it calls [fn] at most 4 times;
    each retry follows a rate-limit failure (as classified by
    [isRateLimitError]), and the delay before the retry of attempt [n] is
    [min(1000, 250 * 2^n)] plus a jitter in [[0, 250)]; the result is the
    outcome of the last call, which is a success, a failure not classified as
    rate-limiting (propagated at once, without a retry), or the rate-limit
    failure of attempt 3 once the 3 retries are used up. *)
Theorem C7_retry_policy {A} (call : nat -> Outcome A) (random : nat -> Q)
  (Hr : forall n, 0 <= random n < 1) :
  exists ds r,
    retryWithBackoff call random = Some (ds, r)
    /\ (List.length ds <= 3)%nat
    /\ r = call (List.length ds)
    /\ (forall n, (n < List.length ds)%nat ->
          exists e, call n = Rejected e /\ isRateLimitError e = true)
    /\ (forall n d, nth_error ds n = Some d ->
          exists j, d = (Z.min 1000 (250 * 2 ^ Z.of_nat n) + j)%Z /\ (0 <= j < 250)%Z)
    /\ (forall e, r = Rejected e -> isRateLimitError e = false \/ List.length ds = 3%nat).
Proof.
  destruct (retry_loop_spec 4 0 call random Hr) as (ds & r & H1 & H2 & H3 & H4 & H5 & H6);
    [lia | lia |].
  exists ds, r. exact (conj H1 (conj H2 (conj H3 (conj H4 (conj H5 H6))))).
Qed.

Lemma C7_retry_policy_witness :
  let call := fun n : nat =>
    if Nat.ltb n 2 then Rejected (mkReject (PNum 429) PUndef (Some "Too Many Requests"))
    else Resolved "image-bytes" in
  let random := fun _ : nat => Qmake 1 2 in
  (forall n, 0 <= random n < 1)
  /\ retryWithBackoff call random = Some ([(250 + 125)%Z; (500 + 125)%Z], Resolved "image-bytes").
Proof.
  cbv zeta.
  assert (Hr : forall n : nat, 0 <= (fun _ : nat => Qmake 1 2) n < 1)
    by (intros _; split; [vm_compute; intro H; discriminate H | reflexivity]).
  pose proof (C7_retry_policy (fun n : nat =>
    if Nat.ltb n 2 then Rejected (mkReject (PNum 429) PUndef (Some "Too Many Requests"))
    else Resolved "image-bytes") _ Hr) as _.
  split; [exact Hr | vm_compute; reflexivity].
Defined.

(** ** Choice validation *)

(** C6 (counterexample).  Four choices whose impacts carry only the adventure
    axis fail the claim's test (no numeric danger, romance or drama impact),
    yet the primary set is accepted and the fallback is not invoked. *)
Lemma C6_adventure_only_impacts_accepted :
  let dc := JArr (map adventure_only_choice ["Climb"; "Hide"; "Confess"; "Accuse"]) in
  spec_choices_valid dc = false /\ fst (choice_stage dc None) = false.
Proof. split; reflexivity. Qed.

(** C6 (amended).  The fallback is invoked exactly when the primary set is not
    an array of exactly 4 entries each of which is truthy, has a string [text]
    and a truthy [impact] whose [adventure] is a number; when the fallback
    rejects, the chapter completes with an empty choice list. *)
Theorem C6_fallback_iff_primary_rejected (dc : jval) (fb : option (list jval)) :
  fst (choice_stage dc fb) = negb (primary_choices_accepted dc)
  /\ primary_choices_accepted dc =
       match dc with
       | JArr l => Nat.eqb (List.length l) 4
                   && forallb (fun c => truthy c && is_string (jget c "text")
                                        && truthy (jget c "impact")
                                        && is_number (jget (jget c "impact") "adventure")) l
       | _ => false
       end
  /\ snd (choice_stage dc None) = (if primary_choices_accepted dc then dc else JArr []).
Proof.
  unfold choice_stage. split; [|split].
  - destruct (primary_choices_accepted dc); [reflexivity | destruct fb; reflexivity].
  - reflexivity.
  - destruct (primary_choices_accepted dc); reflexivity.
Qed.

(** ** Audio caps *)

(** Every panel task reads the counters before any task has finished, so with
    the initial counters every task decides to generate a sound effect, and a
    stinger whenever its brief has one. *)
Lemma start_all_flags (perPanel : list PanelBrief) (index : nat) (ps : list PanelDraft) (t : PanelTask) :
  In t (snd (start_all (mkCounters 0 0) perPanel index ps)) ->
  pt_shouldGenSfx t = true /\ pt_shouldGenStinger t = str_truthy (stingerPrompt (pt_briefs t)).
Proof.
  revert index. induction ps as [|p rest IH]; intros index H; [contradiction|].
  cbn [start_all] in H.
  destruct (start_all (mkCounters 0 0) perPanel (S index) rest) as [c ts] eqn:E.
  destruct H as [<- | H].
  - unfold task_start. simpl. rewrite andb_true_r. split; reflexivity.
  - apply (IH (S index)). rewrite E. exact H.
Qed.

(** C4 (code bug).  On the reference-page path, a chapter of six panels whose
    briefs all carry a stinger prompt, with audio services that succeed,
    returns six panels with a sound effect and six with a stinger, whatever
    the completion order: the caps of 4 and 2 are not enforced. *)
Theorem C4_caps_exceeded (completion : list nat) :
  let '(_, ps) := render_panels page_services six_briefs completion six_drafts in
  count_sfx ps = 6%nat /\ count_stingers ps = 6%nat.
Proof. vm_compute. split; reflexivity. Qed.

(** ** The image request scheduler *)

Import Scheduler.

Lemma filter_length_mono {A} (f g : A -> bool) (l : list A) :
  (forall x, In x l -> f x = true -> g x = true) ->
  (List.length (filter f l) <= List.length (filter g l))%nat.
Proof.
  induction l as [|x r IH]; intro H; simpl; [lia|].
  assert (IH' := IH (fun y Hy => H y (or_intror Hy))).
  destruct (f x) eqn:Ef.
  - rewrite (H x (or_introl eq_refl) Ef). simpl. lia.
  - destruct (g x); simpl; lia.
Qed.

Lemma filter_absorb {A} (f g : A -> bool) (l : list A) :
  (forall x, In x l -> f x = true -> g x = true) ->
  filter f (filter g l) = filter f l.
Proof.
  induction l as [|x r IH]; intro H; [reflexivity|].
  assert (IH' := IH (fun y Hy => H y (or_intror Hy))).
  simpl. destruct (g x) eqn:Eg; simpl.
  - destruct (f x); rewrite IH'; reflexivity.
  - destruct (f x) eqn:Ef; [|exact IH'].
    rewrite (H x (or_introl eq_refl) Ef) in Eg. discriminate.
Qed.

Lemma recent_mono (p now x : Z) : (p <= now)%Z -> recent now x = true -> recent p x = true.
Proof. unfold recent, ONE_MINUTE_MS. rewrite !Z.ltb_lt. lia. Qed.

Lemma recent_self (now : Z) : recent now now = true.
Proof. unfold recent, ONE_MINUTE_MS. rewrite Z.sub_diag. reflexivity. Qed.

Lemma window_after_start (now w : Z) (starts : list Z) :
  Forall (fun s => s <= now)%Z starts ->
  (List.length (filter (recent now) starts) < IMAGE_RPM_LIMIT)%nat ->
  (forall w', (window_count w' starts <= IMAGE_RPM_LIMIT)%nat) ->
  (window_count w (starts ++ [now]) <= IMAGE_RPM_LIMIT)%nat.
Proof.
  intros Hle Hlen Hw. destruct (Z.le_gt_cases now w) as [Hnw|Hnw].
  - apply Nat.le_trans with (List.length (filter (recent now) (starts ++ [now]))).
    + apply filter_length_mono. intros x Hx Hf.
      assert (Hxn : (x <= now)%Z).
      { apply in_app_or in Hx. destruct Hx as [Hx|[<-|[]]]; [|lia].
        rewrite Forall_forall in Hle. exact (Hle x Hx). }
      apply andb_true_iff in Hf. destruct Hf as [H1 H2].
      apply Z.ltb_lt in H1. unfold recent, ONE_MINUTE_MS in *. apply Z.ltb_lt. lia.
    + rewrite filter_app, length_app. simpl.
      unfold recent at 2, ONE_MINUTE_MS. rewrite Z.sub_diag. simpl. lia.
  - unfold window_count. rewrite filter_app, length_app. simpl.
    replace (Z.leb now w) with false by (symmetry; apply Z.leb_gt; lia).
    rewrite andb_false_r. simpl. rewrite Nat.add_0_r. apply Hw.
Qed.

Lemma prune_loop_inv (now : Z) (st : Sched) : LoopInv now st -> LoopInv now (pruneOldStarts now st).
Proof.
  intros (H1 & H2 & H3 & H4 & H5). unfold pruneOldStarts, LoopInv. cbn.
  repeat split; try assumption. rewrite H4. apply filter_absorb. auto.
Qed.

Lemma start_task_inv (now : Z) (t : nat) (rest : list nat) (st : Sched) :
  LoopInv now st -> can_start st = true -> LoopInv now (start_task now t rest st).
Proof.
  intros (H1 & H2 & H3 & H4 & H5) Hc. unfold can_start in Hc.
  apply andb_true_iff in Hc. destruct Hc as [Hc1 Hc2].
  apply Nat.ltb_lt in Hc1, Hc2.
  unfold start_task, LoopInv. cbn [imageInFlight running started imageStartTimestamps].
  split; [simpl; lia|]. split; [simpl; unfold IMAGE_CONCURRENCY_LIMIT in *; lia|].
  split; [apply Forall_app; split; [exact H3 | constructor; [lia | constructor]]|].
  split.
  - rewrite filter_app, H4. cbn [filter]. rewrite recent_self. reflexivity.
  - intro w. apply window_after_start; [exact H3 | rewrite <- H4; exact Hc2 | exact H5].
Qed.

Lemma process_loop_inv (fuel : nat) (now : Z) (st : Sched) :
  LoopInv now st -> LoopInv now (process_loop fuel now st).
Proof.
  revert st. induction fuel as [|fuel IH]; intros st H; cbn [process_loop].
  - apply prune_loop_inv, H.
  - pose proof (prune_loop_inv now st H) as Hp.
    destruct (can_start (pruneOldStarts now st)) eqn:Ec; [|exact Hp].
    destruct (imageQueue (pruneOldStarts now st)) as [|t rest]; [exact Hp|].
    apply IH, start_task_inv; assumption.
Qed.

Lemma inv_to_loop (T now : Z) (st : Sched) :
  Inv T st -> (T <= now)%Z -> LoopInv now (pruneOldStarts now st).
Proof.
  intros (p & Hp & H1 & H2 & H3 & H4 & H5) HT. unfold pruneOldStarts, LoopInv. cbn.
  split; [exact H1|]. split; [exact H2|]. split.
  - eapply Forall_impl; [|exact H3]. intros a Ha. simpl in Ha. lia.
  - split; [|exact H5]. rewrite H4. apply filter_absorb.
    intros x _. apply recent_mono. lia.
Qed.

Lemma loop_to_inv (now : Z) (st : Sched) : LoopInv now st -> Inv now st.
Proof.
  intros (H1 & H2 & H3 & H4 & H5). exists now. repeat split; try assumption. lia.
Qed.

Lemma processImageQueue_inv (T now : Z) (st : Sched) :
  Inv T st -> (T <= now)%Z -> Inv now (processImageQueue now st).
Proof.
  intros H HT. apply loop_to_inv. unfold processImageQueue.
  pose proof (process_loop_inv (List.length (imageQueue st)) now _ (inv_to_loop T now st H HT)) as Hl.
  set (st1 := process_loop (List.length (imageQueue st)) now (pruneOldStarts now st)) in *.
  destruct (imageQueue st1); [exact Hl | apply prune_loop_inv, Hl].
Qed.

Lemma remove_first_length (t : nat) (l : list nat) :
  existsb (Nat.eqb t) l = true -> List.length (remove_first t l) = (List.length l - 1)%nat.
Proof.
  induction l as [|x r IH]; simpl; [discriminate|].
  intro H. destruct (Nat.eqb x t) eqn:E; [lia|].
  simpl. apply orb_true_iff in H. destruct H as [H|H].
  - apply Nat.eqb_eq in H. apply Nat.eqb_neq in E. congruence.
  - rewrite (IH H). destruct r; [discriminate H | simpl; lia].
Qed.

Lemma Inv_mono (T T' : Z) (st : Sched) : Inv T st -> (T <= T')%Z -> Inv T' st.
Proof.
  intros (p & Hp & H) HT. exists p. split; [lia | exact H].
Qed.

Lemma sched_step_inv (T now : Z) (ev : SchedEvent) (st : Sched) :
  Inv T st -> (T <= now)%Z -> Inv now (sched_step now ev st).
Proof.
  intros H HT. destruct ev as [t| |t]; cbn [sched_step].
  - apply (processImageQueue_inv T); [|exact HT].
    destruct H as (p & Hp & H1 & H2 & H3 & H4 & H5).
    exists p. cbn. repeat split; assumption.
  - apply (processImageQueue_inv T); assumption.
  - destruct (existsb (Nat.eqb t) (running st)) eqn:E; [|exact (Inv_mono T now st H HT)].
    destruct H as (p & Hp & H1 & H2 & H3 & H4 & H5).
    exists p. cbn. rewrite (remove_first_length t _ E).
    repeat split; try assumption; lia.
Qed.

Lemma run_inv (trace : list (Z * SchedEvent)) (T : Z) (st : Sched) :
  Inv T st -> chrono_from T trace -> exists T', Inv T' (run st trace).
Proof.
  revert T st. induction trace as [|[now ev] rest IH]; intros T st H Hc.
  - exists T. exact H.
  - destruct Hc as [HT Hc]. cbn [run].
    exact (IH now _ (sched_step_inv T now ev st H HT) Hc).
Qed.

Lemma chrono_firstn (n : nat) (t0 : Z) (trace : list (Z * SchedEvent)) :
  chrono_from t0 trace -> chrono_from t0 (firstn n trace).
Proof.
  revert n t0. induction trace as [|[now ev] rest IH]; intros n t0 Hc.
  - rewrite firstn_nil. exact I.
  - destruct n as [|n]; [exact I|]. destruct Hc as [Ht Hc].
    split; [exact Ht | exact (IH n now Hc)].
Qed.

Lemma Inv_sched0 (T : Z) : Inv T sched0.
Proof.
  exists T. unfold sched0. cbn.
  repeat split; try constructor; intros; unfold window_count; simpl; lia.
Qed.

(** C3.  Along every run of the scheduler whose clock does not go backwards,
    after every event: at most [IMAGE_CONCURRENCY_LIMIT = 3] tasks are in
    flight (and the in-flight counter is at most 3), and every trailing
    60-second window [(w - 60000, w]] contains at most [IMAGE_RPM_LIMIT = 10]
    task starts. *)
Theorem C3_scheduler_bounds (t0 : Z) (trace : list (Z * SchedEvent)) (n : nat)
  (Hc : chrono_from t0 trace) :
  let st := run sched0 (firstn n trace) in
  (imageInFlight st <= IMAGE_CONCURRENCY_LIMIT)%nat
  /\ (List.length (running st) <= IMAGE_CONCURRENCY_LIMIT)%nat
  /\ (forall w, (window_count w (started st) <= IMAGE_RPM_LIMIT)%nat).
Proof.
  cbv zeta.
  destruct (run_inv (firstn n trace) t0 sched0 (Inv_sched0 t0) (chrono_firstn n t0 trace Hc))
    as (T & p & Hp & H1 & H2 & H3 & H4 & H5).
  split; [rewrite H1; exact H2 | split; [exact H2 | exact H5]].
Qed.

Lemma C3_scheduler_bounds_witness :
  chrono_from 0 sample_trace
  /\ List.length (started (run sched0 sample_trace)) = 4%nat
  /\ (imageInFlight (run sched0 sample_trace) <= IMAGE_CONCURRENCY_LIMIT)%nat
  /\ (forall w, (window_count w (started (run sched0 sample_trace)) <= IMAGE_RPM_LIMIT)%nat).
Proof.
  assert (Hc : chrono_from 0 sample_trace) by (simpl; repeat split; lia).
  destruct (C3_scheduler_bounds 0 sample_trace (List.length sample_trace) Hc) as [H1 [_ H3]].
  rewrite firstn_all in H1, H3.
  split; [exact Hc | split; [reflexivity | split; [exact H1 | exact H3]]].
Defined.

(* ------------------------------------------------------------------------- *)
(** ** More of the story machine *)

Lemma toggle_mute_twice (ctx : StoryContext) : toggle_mute (toggle_mute ctx) = ctx.
Proof. destruct ctx; unfold toggle_mute; simpl; rewrite negb_involutive; reflexivity. Qed.

(** [TOGGLE_MUTE] is an involution in every state: sent twice it restores
    the state and the context; one press keeps the state and flips [isMuted]
    exactly in the active states. *)
Theorem toggle_mute_round_trip (s : StateValue) (ctx : StoryContext) :
  let '(s1, c1) := transition s ctx TOGGLE_MUTE in
  transition s1 c1 TOGGLE_MUTE = (s, ctx)
  /\ s1 = s
  /\ isMuted c1 = (if active s then negb (isMuted ctx) else isMuted ctx).
Proof.
  destruct s; cbn [transition active]; rewrite ?toggle_mute_twice; auto.
Qed.

(** A finished chapter is appended: the old panels stay a prefix, the new
    NPCs are appended to the roster, the index points at the first new panel
    (one past the end when the chapter brought none), a truthy character
    description is kept, and the machine is back in [playing]. *)
Theorem chapter_done_appends (ctx : StoryContext) (o : GenerationOutput) :
  let '(s', c') := transition generating ctx (DoneGenerateChapter o) in
  s' = playing
  /\ allPanels c' = (allPanels ctx ++ newPanels o)%list
  /\ npcs c' = (npcs ctx ++ newNpcs o)%list
  /\ (0 <= currentPanelIndex c')%Z
  /\ nth_error (allPanels c') (Z.to_nat (currentPanelIndex c')) = hd_error (newPanels o)
  /\ (str_truthy (characterDescription ctx) = true ->
      characterDescription c' = characterDescription ctx)
  /\ isGenerating c' = false.
Proof.
  cbn [transition]. unfold chapter_done, panelCount; cbn.
  repeat split; try lia.
  - rewrite Nat2Z.id, nth_error_app2, Nat.sub_diag by lia.
    destruct (newPanels o); reflexivity.
  - destruct (characterDescription ctx); [reflexivity | discriminate].
Qed.

(** The choice that reaches an ending leaves the player without choices:
    after [MAKE_CHOICE] takes the ending branch and the ending actor either
    finishes or fails, the machine is in [playing] with an empty choice list,
    no generation running and the recorded ending. *)
Theorem ending_leaves_no_choices (ctx : StoryContext) (c : Choice) (outcome : Event) :
  ending_guard (mood ctx) (impact c) = true ->
  (exists ps, outcome = DoneGenerateEnding ps) \/ (exists e, outcome = ErrorGenerateEnding e) ->
  let '(s1, c1) := transition playing ctx (MAKE_CHOICE c) in
  let '(s2, c2) := transition s1 c1 outcome in
  s1 = endingGenerating /\ s2 = playing /\ choices c2 = [] /\ isGenerating c2 = false
  /\ ending c2 = Some (maxMood (mood c1)).
Proof.
  intros Hg Ho. cbn [transition]. rewrite Hg.
  destruct Ho as [[ps ->] | [e ->]]; cbn; repeat split.
Qed.

Lemma ending_leaves_no_choices_witness :
  ending_guard (mood (ctx_with_mood (mkMood (1#4) (1#4) (1#4) (1#4)))) (mkMood 1 0 0 0) = true
  /\ let '(s1, c1) := transition playing (ctx_with_mood (mkMood (1#4) (1#4) (1#4) (1#4)))
                        (MAKE_CHOICE (mkChoice "Charge" (mkMood 1 0 0 0))) in
     let '(s2, c2) := transition s1 c1 (ErrorGenerateEnding (ErrorInstance "ending failed")) in
     s1 = endingGenerating /\ s2 = playing /\ choices c2 = [] /\ isGenerating c2 = false
     /\ ending c2 = Some (maxMood (mood c1)).
Proof.
  assert (Hg : ending_guard (mood (ctx_with_mood (mkMood (1#4) (1#4) (1#4) (1#4))))
                 (mkMood 1 0 0 0) = true) by reflexivity.
  split; [exact Hg |].
  exact (ending_leaves_no_choices (ctx_with_mood (mkMood (1#4) (1#4) (1#4) (1#4)))
           (mkChoice "Charge" (mkMood 1 0 0 0)) (ErrorGenerateEnding (ErrorInstance "ending failed"))
           Hg (or_intror (ex_intro _ _ eq_refl))).
Defined.

Lemma machine_step_not_storyEnded (s : StateValue) (ctx : StoryContext) (ev : MachineEvent)
  (s' : StateValue) (ctx' : StoryContext) :
  s <> storyEnded -> machine_step s ctx ev = Some (s', ctx') -> s' <> storyEnded.
Proof.
  intros Hs Hstep.
  destruct ev as [e | saved |]; cbn [machine_step] in Hstep.
  - injection Hstep as H.
    destruct s, e; cbn [transition] in H; try destruct (ending_guard _ _);
      injection H as <- _; congruence.
  - destruct s; try (injection Hstep as <- _; congruence).
    + unfold load_saved_done in Hstep.
      destruct (saved_guard saved); [destruct saved as [[? [?|]]|]|];
        injection Hstep as <- _; congruence.
    + unfold load_completed_done in Hstep.
      destruct saved as [[? [sc|]]|]; [destruct (restore_completed sc); [|discriminate]| |];
        injection Hstep as <- _; congruence.
  - destruct s; injection Hstep as <- _; congruence.
Qed.

(** No event sequence leads the machine into [storyEnded]: no transition of
    the machine, its loading states included, targets it, so its [RESTART]
    (and the [clearState] it performs) never runs. *)
Theorem storyEnded_unreachable (evs : list MachineEvent) (s : StateValue)
  (ctx : StoryContext) (s' : StateValue) (ctx' : StoryContext) :
  s <> storyEnded -> machine_run s ctx evs = Some (s', ctx') -> s' <> storyEnded.
Proof.
  revert s ctx. induction evs as [|ev rest IH]; intros s ctx Hs Hrun; cbn [machine_run] in Hrun.
  - injection Hrun as <- _. exact Hs.
  - destruct (machine_step s ctx ev) as [[s1 c1]|] eqn:E; [|discriminate].
    exact (IH s1 c1 (machine_step_not_storyEnded s ctx ev s1 c1 Hs E) Hrun).
Qed.

Lemma storyEnded_unreachable_witness :
  idle <> storyEnded
  /\ machine_run idle initialContext
       [UserEvent (START fantasy "k" "e"); UserEvent RESTART; UserEvent EXIT_TO_MENU]
     = Some (idle, initialContext)
  /\ idle <> storyEnded.
Proof.
  assert (H : machine_run idle initialContext
       [UserEvent (START fantasy "k" "e"); UserEvent RESTART; UserEvent EXIT_TO_MENU]
     = Some (idle, initialContext)) by reflexivity.
  split; [discriminate | split; [exact H |]].
  exact (storyEnded_unreachable _ idle initialContext idle initialContext
           ltac:(discriminate) H).
Defined.


Lemma applied_mood_le_1 (m i : MoodVector) (k : MoodKey) :
  mood_get (applied_mood m i) k <= 1.
Proof. rewrite applied_mood_get. apply Math_min_1_le. Qed.






Lemma transition_mood_le_1 (s : StateValue) (ctx : StoryContext) (e : Event) :
  (forall k, mood_get (mood ctx) k <= 1) ->
  forall k, mood_get (mood (snd (transition s ctx e))) k <= 1.
Proof.
  intros Hm.
  assert (Hinit : forall k, mood_get (mood initialContext) k <= 1)
    by (intros []; cbn; unfold Qle; cbn; lia).
  destruct s, e; cbn [transition snd]; try (destruct (ending_guard _ _)); cbn [snd];
    try exact Hm; try exact Hinit; try (intros k; apply applied_mood_le_1).
Qed.

(** Along every run from the initial configuration through user and
    generation events, every mood axis stays at most 1.0. *)
Theorem mood_at_most_one_on_runs (evs : list Event) (s : StateValue) (ctx : StoryContext)
  (k : MoodKey) :
  machine_run idle initialContext (map UserEvent evs) = Some (s, ctx) ->
  mood_get (mood ctx) k <= 1.
Proof.
  assert (Hinit : forall k, mood_get (mood initialContext) k <= 1)
    by (intros []; cbn; unfold Qle; cbn; lia).
  revert Hinit. generalize idle initialContext.
  induction evs as [|e rest IH]; intros s0 c0 Hm Hrun; cbn [map machine_run machine_step] in Hrun.
  - injection Hrun as <- <-. apply Hm.
  - destruct (transition s0 c0 e) as [s1 c1] eqn:E.
    apply (IH s1 c1); [| exact Hrun].
    pose proof (transition_mood_le_1 s0 c0 e Hm) as H. rewrite E in H. exact H.
Qed.

Lemma mood_at_most_one_on_runs_witness :
  machine_run idle initialContext (map UserEvent sample_events)
  = Some (endingGenerating, snd (transition playing
            (chapter_done (start_context fantasy "gemini-key" "elevenlabs-key")
               (mkGenOut [] [] None None None []))
            (MAKE_CHOICE (mkChoice "Charge" (mkMood 1 0 0 0)))))
  /\ mood_get (mood (snd (transition playing
            (chapter_done (start_context fantasy "gemini-key" "elevenlabs-key")
               (mkGenOut [] [] None None None []))
            (MAKE_CHOICE (mkChoice "Charge" (mkMood 1 0 0 0)))))) adventure <= 1.
Proof.
  assert (H : machine_run idle initialContext (map UserEvent sample_events)
  = Some (endingGenerating, snd (transition playing
            (chapter_done (start_context fantasy "gemini-key" "elevenlabs-key")
               (mkGenOut [] [] None None None []))
            (MAKE_CHOICE (mkChoice "Charge" (mkMood 1 0 0 0)))))) by reflexivity.
  split; [exact H | exact (mood_at_most_one_on_runs sample_events _ _ adventure H)].
Defined.





(** The navigation buttons move by exactly one panel: in an active state with
    a non-negative index, when [Navigation] enables Next ([canGoNext]) the
    [VIEW_NEXT] it sends advances the index by one, staying at most
    [totalPanels - 1]; when it enables Previous ([canGoPrev]) [VIEW_PREV] moves
    it back by one, staying non-negative. *)
Theorem navigation_buttons_move_by_one (s : StateValue) (ctx : StoryContext) :
  active s = true -> (0 <= currentPanelIndex ctx)%Z ->
  (canGoNext ctx = true ->
   let '(s', c') := transition s ctx VIEW_NEXT in
   s' = s /\ currentPanelIndex c' = (currentPanelIndex ctx + 1)%Z
   /\ (currentPanelIndex c' <= panelCount ctx - 1)%Z)
  /\ (canGoPrev ctx = true ->
      let '(s', c') := transition s ctx VIEW_PREV in
      s' = s /\ currentPanelIndex c' = (currentPanelIndex ctx - 1)%Z
      /\ (0 <= currentPanelIndex c')%Z).
Proof.
  intros Ha H0. unfold canGoNext, canGoPrev. rewrite !Z.ltb_lt.
  destruct s; try discriminate; cbn [transition];
    unfold view_next_guarded, view_next_plain, view_prev, with_index; cbn;
    (split; intros H; repeat split; lia).
Qed.

Lemma navigation_buttons_move_by_one_witness :
  let ctx := with_index (ctx_with_mood (mkMood (1#4) (1#4) (1#4) (1#4))) 1 in
  let ctx3 := {| mood := mood ctx; theme := theme ctx; choices := choices ctx;
     allPanels := repeat (mkPanel "img" "text" None None None) 3;
     currentPanelIndex := 1;
     characterReference := None; characterDescription := None;
     isGenerating := false; error := None; ending := None;
     backgroundMusic := None; isMuted := false;
     apiKey := apiKey ctx; elevenLabsApiKey := elevenLabsApiKey ctx;
     lastChoiceText := None; npcs := [] |} in
  canGoNext ctx3 = true /\ canGoPrev ctx3 = true
  /\ currentPanelIndex (snd (transition playing ctx3 VIEW_NEXT)) = 2%Z.
Proof.
  intros ctx ctx3.
  assert (Hn : canGoNext ctx3 = true) by reflexivity.
  assert (Hp : canGoPrev ctx3 = true) by reflexivity.
  split; [exact Hn | split; [exact Hp |]].
  destruct (navigation_buttons_move_by_one playing ctx3 eq_refl
              ltac:(cbn; lia)) as [Hnext _].
  specialize (Hnext Hn). destruct (transition playing ctx3 VIEW_NEXT) as [s' c'] eqn:E.
  destruct Hnext as [_ [Hi _]]. cbn [snd]. rewrite Hi. reflexivity.
Defined.

(* ------------------------------------------------------------------------- *)
(** ** Loading stories *)

(** A snapshot read back without both keys (or no snapshot at all: the
    store holds nothing) sends the machine from [loadingSavedStory] to [idle]
    with a fresh context and the error "Saved story is missing API keys.
    Please start a new game.". *)
Theorem load_without_keys_resets (ctx : StoryContext) (saved : option Snapshot) :
  (forall v sc, saved = Some (mkSnapshot v (Some sc)) ->
   str_truthy (sc_apiKey sc) = false \/ str_truthy (sc_elevenLabsApiKey sc) = false) ->
  machine_step loadingSavedStory ctx (LoadDone saved)
  = Some (idle, with_error initialContext
                  "Saved story is missing API keys. Please start a new game.").
Proof.
  intros Hk. cbn [machine_step]. unfold load_saved_done.
  replace (saved_guard saved) with false; [reflexivity |].
  destruct saved as [[v [sc|]]|]; cbn; try reflexivity.
  destruct (Hk v sc eq_refl) as [H | H]; rewrite H; [reflexivity | rewrite andb_false_r; reflexivity].
Qed.

Lemma load_without_keys_resets_witness :
  (forall v sc, (None : option Snapshot) = Some (mkSnapshot v (Some sc)) ->
   str_truthy (sc_apiKey sc) = false \/ str_truthy (sc_elevenLabsApiKey sc) = false)
  /\ machine_step loadingSavedStory initialContext (LoadDone None)
     = Some (idle, with_error initialContext
                     "Saved story is missing API keys. Please start a new game.").
Proof.
  assert (H : forall v sc, (None : option Snapshot) = Some (mkSnapshot v (Some sc)) ->
   str_truthy (sc_apiKey sc) = false \/ str_truthy (sc_elevenLabsApiKey sc) = false)
    by discriminate.
  split; [exact H | exact (load_without_keys_resets initialContext None H)].
Defined.

Lemma continue_after_save (s : StateValue) (ctx ctx0 : StoryContext) (snap : Snapshot)
  (db : Store) (fetch_blob : string -> option string) (createObjectURL : string -> string) :
  snapshot_of s ctx = Some snap ->
  str_truthy (apiKey ctx) = true -> str_truthy (elevenLabsApiKey ctx) = true ->
  machine_run idle ctx0
    [UserEvent CONTINUE; LoadDone (loadState createObjectURL (saveState fetch_blob snap db))]
  = Some (playing, resumed ctx (match backgroundMusicBlob (saveState fetch_blob snap db) with
                                | Some b => Some (createObjectURL b)
                                | None => backgroundMusic ctx
                                end)).
Proof.
  intros Hs Ha He.
  assert (Hsnap : snap = mkSnapshot s (Some (to_saved ctx)))
    by (destruct s; cbn in Hs; try discriminate; injection Hs as <-; reflexivity).
  set (db' := saveState fetch_blob snap db).
  assert (Hcur : currentState db' = Some snap) by reflexivity.
  cbn [machine_run machine_step transition].
  unfold loadState. rewrite Hcur, Hsnap. cbn [snap_context snap_value].
  destruct (backgroundMusicBlob db') as [b|];
    unfold load_saved_done, saved_guard; cbn [sc_apiKey sc_elevenLabsApiKey with_music to_saved];
    rewrite Ha, He; cbn [andb];
    destruct ctx as [[a d r dr] ? ? ? ? ? ? ? ? ? ? ? ? ? ? ?]; reflexivity.
Qed.

(** Saving and resuming round-trip the story: once the App has written the
    snapshot of a state other than [idle] and [loadingSavedStory] whose
    context has both keys, [CONTINUE] resumes in [playing] (whatever state
    was saved) with that context, except that every panel loses its
    narration and sound-effect audio and the background music becomes an
    object URL of the stored music blob when there is one.  The
    [isGenerating] flag comes back as saved, so a story saved during a
    generation resumes in [playing] flagged as generating. *)
Theorem save_then_continue (s : StateValue) (ctx ctx0 : StoryContext) (snap : Snapshot)
  (db : Store) (fetch_blob : string -> option string) (createObjectURL : string -> string) :
  snapshot_of s ctx = Some snap ->
  str_truthy (apiKey ctx) = true -> str_truthy (elevenLabsApiKey ctx) = true ->
  machine_run idle ctx0
    [UserEvent CONTINUE; LoadDone (loadState createObjectURL (saveState fetch_blob snap db))]
  = Some (playing, resumed ctx (match backgroundMusicBlob (saveState fetch_blob snap db) with
                                | Some b => Some (createObjectURL b)
                                | None => backgroundMusic ctx
                                end)).
Proof. exact (continue_after_save s ctx ctx0 snap db fetch_blob createObjectURL). Qed.


Lemma save_then_continue_witness :
  snapshot_of generating generating_ctx = Some (mkSnapshot generating (Some (to_saved generating_ctx)))
  /\ str_truthy (apiKey generating_ctx) = true
  /\ str_truthy (elevenLabsApiKey generating_ctx) = true
  /\ machine_run idle initialContext
       [UserEvent CONTINUE;
        LoadDone (loadState (fun b => "blob:" ++ b)
                    (saveState (fun _ => None) (mkSnapshot generating (Some (to_saved generating_ctx)))
                       (mkStore None None)))]
     = Some (playing, resumed generating_ctx None)
  /\ isGenerating (resumed generating_ctx None) = true.
Proof.
  assert (Hs : snapshot_of generating generating_ctx
               = Some (mkSnapshot generating (Some (to_saved generating_ctx)))) by reflexivity.
  assert (Ha : str_truthy (apiKey generating_ctx) = true) by reflexivity.
  assert (He : str_truthy (elevenLabsApiKey generating_ctx) = true) by reflexivity.
  refine (conj Hs (conj Ha (conj He (conj _ eq_refl)))).
  exact (save_then_continue generating generating_ctx initialContext _ (mkStore None None)
           (fun _ => None) (fun b => "blob:" ++ b) Hs Ha He).
Defined.

(** The music blob is never removed by a save: when the saved context has no
    music URL, or its music cannot be fetched, while the store still holds
    the blob of an earlier save, [CONTINUE] resumes with an object URL of
    that earlier blob as the background music. *)
Theorem continue_replays_stored_music (s : StateValue) (ctx ctx0 : StoryContext)
  (snap : Snapshot) (db : Store) (old : string) (fetch_blob : string -> option string)
  (createObjectURL : string -> string) :
  snapshot_of s ctx = Some snap ->
  str_truthy (apiKey ctx) = true -> str_truthy (elevenLabsApiKey ctx) = true ->
  backgroundMusicBlob db = Some old ->
  (forall url, backgroundMusic ctx = Some url -> url <> "" -> fetch_blob url = None) ->
  machine_run idle ctx0
    [UserEvent CONTINUE; LoadDone (loadState createObjectURL (saveState fetch_blob snap db))]
  = Some (playing, resumed ctx (Some (createObjectURL old))).
Proof.
  intros Hs Ha He Hold Hf.
  rewrite (continue_after_save s ctx ctx0 snap db fetch_blob createObjectURL Hs Ha He).
  assert (Hsnap : snap = mkSnapshot s (Some (to_saved ctx)))
    by (destruct s; cbn in Hs; try discriminate; injection Hs as <-; reflexivity).
  subst snap. unfold saveState. cbn [snap_context sc_backgroundMusic to_saved].
  destruct (backgroundMusic ctx) as [url|] eqn:Em.
  - destruct (String.eqb url "") eqn:Eu.
    + cbn. rewrite Hold. reflexivity.
    + rewrite (Hf url eq_refl) by (intros ->; discriminate Eu). cbn. rewrite Hold. reflexivity.
  - cbn. rewrite Hold. reflexivity.
Qed.

Lemma continue_replays_stored_music_witness :
  machine_run idle initialContext
    [UserEvent CONTINUE;
     LoadDone (loadState (fun b => "blob:" ++ b)
                 (saveState (fun _ => None) (mkSnapshot generating (Some (to_saved generating_ctx)))
                    (mkStore None (Some "music-of-an-earlier-story"))))]
  = Some (playing, resumed generating_ctx (Some "blob:music-of-an-earlier-story")).
Proof.
  refine (continue_replays_stored_music generating generating_ctx initialContext _
            (mkStore None (Some "music-of-an-earlier-story")) "music-of-an-earlier-story"
            (fun _ => None) (fun b => "blob:" ++ b) eq_refl eq_refl eq_refl eq_refl _).
  intros url H. discriminate H.
Defined.

(** Loading a completed story checks no key: any stored context with a full
    mood is opened in [viewingPrevious], with its panels' narration and
    sound-effect audio dropped, [isGenerating] false and no error, its keys
    as stored (possibly missing). *)
Theorem completed_story_loads_without_keys (ctx : StoryContext) (v : StateValue)
  (sc : SavedContext) (c : StoryContext) :
  restore_completed sc = Some c ->
  machine_step loadingCompletedStory ctx (LoadDone (Some (mkSnapshot v (Some sc))))
    = Some (viewingPrevious, c)
  /\ isGenerating c = false /\ error c = None
  /\ apiKey c = sc_apiKey sc /\ elevenLabsApiKey c = sc_elevenLabsApiKey sc
  /\ allPanels c = map clear_audio (sc_allPanels sc).
Proof.
  intros Hr. cbn [machine_step]. unfold load_completed_done. rewrite Hr.
  unfold restore_completed in Hr.
  destruct (sc_mood sc) as [[a|] [d|] [r|] [dr|]]; try discriminate.
  injection Hr as <-. repeat split.
Qed.


Lemma completed_story_loads_without_keys_witness :
  exists c, restore_completed keyless_saved = Some c
  /\ machine_step loadingCompletedStory initialContext
       (LoadDone (Some (mkSnapshot storyEnded (Some keyless_saved))))
     = Some (viewingPrevious, c)
  /\ apiKey c = None.
Proof.
  eexists. assert (H : restore_completed keyless_saved = Some _) by reflexivity.
  split; [exact H |].
  destruct (completed_story_loads_without_keys initialContext storyEnded keyless_saved _ H)
    as [Hs [_ [_ [Ha _]]]].
  split; [exact Hs | exact Ha].
Defined.

(** A story opened for viewing is read-only: from [viewingPrevious], every
    sequence of user and generation events without [EXIT_TO_MENU] keeps the
    machine there, with the same panels, choices, mood, NPCs and ending; no
    generation can start. *)
Theorem viewingPrevious_read_only (evs : list Event) (ctx : StoryContext) :
  ~ In EXIT_TO_MENU evs ->
  exists c', machine_run viewingPrevious ctx (map UserEvent evs) = Some (viewingPrevious, c')
  /\ allPanels c' = allPanels ctx /\ choices c' = choices ctx /\ mood c' = mood ctx
  /\ npcs c' = npcs ctx /\ ending c' = ending ctx.
Proof.
  revert ctx. induction evs as [|e rest IH]; intros ctx Hn.
  - exists ctx. repeat split.
  - assert (He : e <> EXIT_TO_MENU) by (intros ->; apply Hn; left; reflexivity).
    assert (Hr : ~ In EXIT_TO_MENU rest) by (intros H; apply Hn; right; exact H).
    cbn [map machine_run machine_step].
    assert (Hstep : exists c1, transition viewingPrevious ctx e = (viewingPrevious, c1)
              /\ allPanels c1 = allPanels ctx /\ choices c1 = choices ctx /\ mood c1 = mood ctx
              /\ npcs c1 = npcs ctx /\ ending c1 = ending ctx)
      by (destruct e; try congruence; cbn [transition]; eexists; repeat split).
    destruct Hstep as (c1 & -> & H1 & H2 & H3 & H4 & H5).
    destruct (IH c1 Hr) as (c' & Hrun & G1 & G2 & G3 & G4 & G5).
    exists c'. rewrite Hrun. repeat split; congruence.
Qed.

Lemma viewingPrevious_read_only_witness :
  ~ In EXIT_TO_MENU [VIEW_NEXT; MAKE_CHOICE (mkChoice "Again" (mkMood 1 1 1 1)); CONTINUE]
  /\ exists c', machine_run viewingPrevious initialContext
       (map UserEvent [VIEW_NEXT; MAKE_CHOICE (mkChoice "Again" (mkMood 1 1 1 1)); CONTINUE])
     = Some (viewingPrevious, c').
Proof.
  assert (H : ~ In EXIT_TO_MENU
                [VIEW_NEXT; MAKE_CHOICE (mkChoice "Again" (mkMood 1 1 1 1)); CONTINUE])
    by (cbn; intros [H|[H|[H|[]]]]; discriminate H).
  split; [exact H |].
  destruct (viewingPrevious_read_only _ initialContext H) as (c' & Hr & _).
  exists c'. exact Hr.
Defined.

(* ------------------------------------------------------------------------- *)
(** ** The ending request *)

Ltac case_Qle :=
  repeat match goal with
  | |- context [Qle_bool ?x ?y] =>
      lazymatch constr:((x, y)) with context [Qle_bool _ _] => fail | _ => idtac end;
      let E := fresh "E" in
      destruct (Qle_bool x y) eqn:E;
      [apply Qle_bool_iff in E | assert (~ x <= y) by (rewrite <- Qle_bool_iff; congruence); clear E];
      cbn [negb]
  end.

(** Without a recorded ending, [generateEnding] picks the first maximal axis
    in the order adventure, danger, romance, drama: the axis it picks is at
    least every other one and strictly above every axis listed before it. *)
Theorem dominantMood_first_maximal (m : MoodVector) :
  (forall j, mood_get m j <= mood_get m (dominantMood None m))
  /\ (forall j, (key_rank j < key_rank (dominantMood None m))%nat ->
        mood_get m j < mood_get m (dominantMood None m)).
Proof.
  destruct m as [a d r dr]. unfold dominantMood, Q_gt. cbn [fold_left mood_get].
  case_Qle; cbn [negb mood_get mv_adventure mv_danger mv_romance mv_drama] in *;
    (split; [intros j | intros j Hj]); destruct j;
    cbn [mood_get key_rank mv_adventure mv_danger mv_romance mv_drama] in *; try lia; lra.
Qed.

(** On the ending path the ending request always carries the axis recorded by
    [MAKE_CHOICE] ([maxMood] of the new mood), never [generateEnding]'s own
    fallback: when the ending guard holds and the keys and theme are set,
    the request issued from the [endingGenerating] context has the new mood
    and [er_dominantMood = maxMood] of it. *)
Theorem ending_request_uses_recorded_axis (ctx : StoryContext) (c : Choice) (t : Theme) :
  ending_guard (mood ctx) (impact c) = true ->
  str_truthy (apiKey ctx) = true -> str_truthy (elevenLabsApiKey ctx) = true ->
  theme ctx = Some t ->
  exists req,
    generateEnding_request (snd (transition playing ctx (MAKE_CHOICE c))) = inr req
    /\ er_mood req = applied_mood (mood ctx) (impact c)
    /\ er_dominantMood req = maxMood (applied_mood (mood ctx) (impact c)).
Proof.
  intros Hg Ha He Ht. cbn [transition]. rewrite Hg. cbn [snd].
  unfold generateEnding_request, choice_to_ending. cbn [apiKey elevenLabsApiKey theme mood ending].
  rewrite Ha, He, Ht. cbn [andb].
  eexists. split; [reflexivity | split; reflexivity].
Qed.

Lemma ending_request_uses_recorded_axis_witness :
  ending_guard (mood (ctx_with_mood (mkMood (1#2) (1#2) (1#4) (1#4)))) (mkMood (1#2) (1#2) 0 0) = true
  /\ maxMood (applied_mood (mkMood (1#2) (1#2) (1#4) (1#4)) (mkMood (1#2) (1#2) 0 0)) = danger
  /\ dominantMood None (applied_mood (mkMood (1#2) (1#2) (1#4) (1#4)) (mkMood (1#2) (1#2) 0 0))
     = adventure
  /\ exists req,
       generateEnding_request
         (snd (transition playing (ctx_with_mood (mkMood (1#2) (1#2) (1#4) (1#4)))
                 (MAKE_CHOICE (mkChoice "Hold the line" (mkMood (1#2) (1#2) 0 0))))) = inr req
       /\ er_dominantMood req = danger.
Proof.
  assert (Hg : ending_guard (mood (ctx_with_mood (mkMood (1#2) (1#2) (1#4) (1#4))))
                 (mkMood (1#2) (1#2) 0 0) = true) by reflexivity.
  assert (Hm : maxMood (applied_mood (mkMood (1#2) (1#2) (1#4) (1#4)) (mkMood (1#2) (1#2) 0 0))
               = danger) by reflexivity.
  refine (conj Hg (conj Hm (conj eq_refl _))).
  destruct (ending_request_uses_recorded_axis (ctx_with_mood (mkMood (1#2) (1#2) (1#4) (1#4)))
              (mkChoice "Hold the line" (mkMood (1#2) (1#2) 0 0)) fantasy Hg eq_refl eq_refl eq_refl)
    as (req & Hr & _ & Hd).
  exists req. split; [exact Hr | rewrite Hd; exact Hm].
Defined.

(* ------------------------------------------------------------------------- *)
(** ** Substring search ([String.prototype.includes], [toLowerCase]) *)

Lemma str_app_assoc (a b c : string) : ((a ++ b) ++ c)%string = (a ++ (b ++ c))%string.
Proof. induction a as [|x a IH]; cbn; [reflexivity | rewrite IH; reflexivity]. Qed.


Lemma prefix_spec (n h : string) : prefix n h = true <-> exists b, h = (n ++ b)%string.
Proof.
  revert h. induction n as [|x n IH]; intros h.
  - split; [intros _; exists h; reflexivity | intros _; destruct h; reflexivity].
  - destruct h as [|y h]; cbn.
    + split; [discriminate | intros [b Hb]; discriminate Hb].
    + destruct (Ascii.ascii_dec x y) as [<- | Hxy].
      * rewrite IH. split; intros [b Hb]; exists b; [rewrite Hb | injection Hb as Hb]; reflexivity || exact Hb.
      * split; [discriminate | intros [b Hb]; injection Hb as Hb _; congruence].
Qed.

Lemma includes_cons (c : Ascii.ascii) (h n : string) :
  includes (String c h) n = prefix n (String c h) || includes h n.
Proof.
  unfold includes. cbn [index]. destruct (prefix n (String c h)); [reflexivity |].
  destruct (index 0 n h); reflexivity.
Qed.

Lemma includes_spec (h n : string) :
  includes h n = true <-> exists a b, h = (a ++ n ++ b)%string.
Proof.
  induction h as [|c h IH].
  - unfold includes. destruct n as [|x n]; cbn.
    + split; [intros _; exists ""%string, ""%string; reflexivity | reflexivity].
    + split; [discriminate |]. intros (a & b & Hab). destruct a; discriminate Hab.
  - rewrite includes_cons, Bool.orb_true_iff, prefix_spec, IH. split.
    + intros [[b Hb] | (a & b & Hab)].
      * exists ""%string, b. exact Hb.
      * exists (String c a), b. rewrite Hab. reflexivity.
    + intros (a & b & Hab). destruct a as [|c' a].
      * left. exists b. exact Hab.
      * right. injection Hab as _ Hab. exists a, b. exact Hab.
Qed.





(* ------------------------------------------------------------------------- *)
(** ** Rate-limit detection *)

(** A truthy [status] decides alone: the [code] is then never read, so a
    rejection with, say, status 503 and code 429 is not a rate limit. *)
Theorem rate_limit_status_overrides_code (st code code' : prim) (msg : option string) :
  prim_truthy st = true ->
  isRateLimitError (mkReject st code msg) = isRateLimitError (mkReject st code' msg).
Proof. intros H. unfold isRateLimitError. cbn [r_status r_code r_message]. rewrite H. reflexivity. Qed.

Lemma rate_limit_status_overrides_code_witness :
  prim_truthy (PNum 503) = true
  /\ isRateLimitError (mkReject (PNum 503) (PNum 429) None) = false
  /\ isRateLimitError (mkReject PUndef (PNum 429) None) = true.
Proof.
  assert (H : prim_truthy (PNum 503) = true) by reflexivity.
  refine (conj H (conj _ eq_refl)).
  rewrite (rate_limit_status_overrides_code (PNum 503) (PNum 429) PUndef None H).
  reflexivity.
Defined.

(** The message test matches substrings: any message that mentions
    "generate" (in any letter case) contains "rate", so the rejection counts
    as a rate limit, whatever its status and code. *)
Theorem generate_message_counts_as_rate_limit (st code : prim) (m : string) :
  includes (toLowerCase m) "generate" = true ->
  isRateLimitError (mkReject st code (Some m)) = true.
Proof.
  intros H. apply includes_spec in H. destruct H as (a & b & Hab).
  assert (Hr : includes (toLowerCase m) "rate" = true).
  { apply includes_spec. exists (a ++ "gene")%string, b.
    rewrite Hab, str_app_assoc. reflexivity. }
  unfold isRateLimitError. cbn [r_status r_code r_message].
  rewrite Hr, !Bool.orb_true_r. reflexivity.
Qed.

Lemma generate_message_counts_as_rate_limit_witness :
  includes (toLowerCase "Failed to Generate image") "generate" = true
  /\ isRateLimitError (mkReject (PNum 500) PUndef (Some "Failed to Generate image")) = true.
Proof.
  assert (H : includes (toLowerCase "Failed to Generate image") "generate" = true)
    by reflexivity.
  split; [exact H | exact (generate_message_counts_as_rate_limit (PNum 500) PUndef _ H)].
Defined.

(* ------------------------------------------------------------------------- *)
(** ** Image results *)

Lemma collect_parts_acc (ps : list Part) (acc : list string) :
  fold_left (fun images p =>
      if str_truthy (inlineData p) then (images ++ [or_empty (inlineData p)])%list else images)
    ps acc
  = (acc ++ fold_left (fun images p =>
      if str_truthy (inlineData p) then (images ++ [or_empty (inlineData p)])%list else images)
    ps [])%list.
Proof.
  revert acc. induction ps as [|p rest IH]; intros acc; cbn [fold_left].
  - rewrite app_nil_r. reflexivity.
  - destruct (str_truthy (inlineData p)).
    + rewrite (IH (acc ++ _)%list), (IH ([] ++ _)%list), <- app_assoc. reflexivity.
    + apply IH.
Qed.

Lemma collect_cands_acc (cs : list (option (list Part))) (acc : list string) :
  fold_left (fun images c =>
      fold_left (fun images p =>
          if str_truthy (inlineData p) then (images ++ [or_empty (inlineData p)])%list
          else images)
        (candidate_parts c) images) cs acc
  = (acc ++ List.concat (map (fun c => fold_left (fun images p =>
          if str_truthy (inlineData p) then (images ++ [or_empty (inlineData p)])%list
          else images) (candidate_parts c) []) cs))%list.
Proof.
  revert acc. induction cs as [|c rest IH]; intros acc; cbn [fold_left map List.concat].
  - rewrite app_nil_r. reflexivity.
  - rewrite IH, collect_parts_acc, app_assoc. reflexivity.
Qed.

Lemma first_in_parts_hd (ps : list Part) :
  first_in_parts ps
  = hd_error (fold_left (fun images p =>
      if str_truthy (inlineData p) then (images ++ [or_empty (inlineData p)])%list else images)
    ps []).
Proof.
  induction ps as [|p rest IH]; [reflexivity |]. cbn [first_in_parts fold_left].
  destruct (str_truthy (inlineData p)) eqn:E.
  - rewrite collect_parts_acc. destruct (inlineData p) as [d|]; [reflexivity | discriminate E].
  - exact IH.
Qed.

Lemma first_image_hd (resp : Response) :
  first_image (candidates resp) = hd_error (collect_images resp).
Proof.
  unfold collect_images. rewrite collect_cands_acc. cbn [app].
  induction (candidates resp) as [|c rest IH]; [reflexivity |].
  cbn [first_image map List.concat]. rewrite first_in_parts_hd.
  destruct (fold_left _ (candidate_parts c) []) as [|d ds]; [exact IH | reflexivity].
Qed.

Lemma collect_parts_nonempty (ps : list Part) :
  Forall (fun i => i <> ""%string)
    (fold_left (fun images p =>
      if str_truthy (inlineData p) then (images ++ [or_empty (inlineData p)])%list else images)
    ps []).
Proof.
  induction ps as [|p rest IH]; [constructor |]. cbn [fold_left].
  destruct (str_truthy (inlineData p)) eqn:E; [| exact IH].
  rewrite collect_parts_acc. constructor; [| exact IH].
  destruct (inlineData p) as [d|]; [| discriminate E].
  cbn in *. intros ->. discriminate E.
Qed.

Lemma collect_images_nonempty (resp : Response) :
  Forall (fun i => i <> ""%string) (collect_images resp).
Proof.
  unfold collect_images. rewrite collect_cands_acc. cbn [app].
  induction (candidates resp) as [|c rest IH]; [constructor |].
  cbn [map List.concat]. apply Forall_app. split; [apply collect_parts_nonempty | exact IH].
Qed.

Lemma batch_result_iff (key : string) (descs : list string) (resp : Response)
  (imgs : list string) :
  generateChapterImagesBatch_result key descs resp = inr imgs
  <-> key <> ""%string /\ descs <> [] /\ imgs = collect_images resp
      /\ List.length imgs = List.length descs.
Proof.
  unfold generateChapterImagesBatch_result.
  destruct (String.eqb key "") eqn:Ek.
  - apply String.eqb_eq in Ek. split; [discriminate | intros [H _]; contradiction].
  - apply String.eqb_neq in Ek. destruct descs as [|d ds].
    + split; [discriminate | intros (_ & H & _); contradiction].
    + destruct (Nat.eqb (List.length (collect_images resp)) (List.length (d :: ds))) eqn:El.
      * apply Nat.eqb_eq in El. split.
        -- intros H. injection H as <-. repeat split; try assumption; discriminate.
        -- intros (_ & _ & -> & _). reflexivity.
      * apply Nat.eqb_neq in El. split; [discriminate |].
        intros (_ & _ & -> & Hl). contradiction.
Qed.


(** No image either call returns is the empty string: parts whose
    [inlineData.data] is empty are skipped. *)
Theorem images_never_empty (key : string) (descs : list string) (resp : Response)
  (imgs : list string) :
  generateChapterImagesBatch_result key descs resp = inr imgs ->
  Forall (fun i => i <> ""%string) imgs.
Proof.
  intros H. apply batch_result_iff in H. destruct H as (_ & _ & -> & _).
  apply collect_images_nonempty.
Qed.


Lemma images_never_empty_witness :
  generateChapterImagesBatch_result "key" ["one"; "two"] two_image_response
    = inr ["img-1"; "img-2"]
  /\ Forall (fun i => i <> ""%string) ["img-1"; "img-2"].
Proof.
  assert (H : generateChapterImagesBatch_result "key" ["one"; "two"] two_image_response
              = inr ["img-1"; "img-2"]) by reflexivity.
  split; [exact H | exact (images_never_empty _ _ _ _ H)].
Defined.

(** [generatePanelImage] resolves exactly when the key is non-empty and the
    response has an image, and it returns the first image that the batch
    collection loop would gather from the same response. *)
Theorem panel_image_is_first_batch_image (key : string) (resp : Response) (img : string) :
  generatePanelImage_result key resp = inr img
  <-> key <> ""%string /\ hd_error (collect_images resp) = Some img.
Proof.
  unfold generatePanelImage_result. rewrite first_image_hd.
  destruct (String.eqb key "") eqn:Ek.
  - apply String.eqb_eq in Ek. split; [discriminate | intros [H _]; contradiction].
  - apply String.eqb_neq in Ek. destruct (hd_error (collect_images resp)) as [d|].
    + split; [intros H; injection H as <-; split; [exact Ek | reflexivity] |].
      intros [_ H]. injection H as <-. reflexivity.
    + split; [discriminate | intros [_ H]; discriminate H].
Qed.

(* ------------------------------------------------------------------------- *)
(** ** NPC reference images *)




(* ------------------------------------------------------------------------- *)
(** ** The image scheduler *)

Lemma skipn_cons_S {A} (k : nat) (l rest : list A) (t : A) :
  skipn k l = t :: rest -> skipn (S k) l = rest /\ (S k <= List.length l)%nat.
Proof.
  revert l. induction k as [|k IH]; intros l H.
  - cbn in H. subst l. split; [reflexivity | cbn; lia].
  - destruct l as [|x l]; [discriminate H |]. cbn in H |- *.
    destruct (IH l H) as [H1 H2]. split; [exact H1 | lia].
Qed.

Lemma skipn_app_le {A} (k : nat) (l l' : list A) :
  (k <= List.length l)%nat -> skipn k (l ++ l') = (skipn k l ++ l')%list.
Proof.
  revert l. induction k as [|k IH]; intros l H; [reflexivity |].
  destruct l as [|x l]; cbn in H; [lia |]. cbn. apply IH. lia.
Qed.

Lemma process_loop_fifo (fuel : nat) (now : Z) (st : Sched) (L : list nat) :
  skipn (List.length (started st)) L = imageQueue st ->
  (List.length (started st) <= List.length L)%nat ->
  let st' := process_loop fuel now st in
  skipn (List.length (started st')) L = imageQueue st'
  /\ (List.length (started st') <= List.length L)%nat.
Proof.
  revert st. induction fuel as [|f IH]; intros st H1 H2; cbn [process_loop].
  - split; assumption.
  - destruct (can_start (pruneOldStarts now st)); [| split; assumption].
    change (imageQueue (pruneOldStarts now st)) with (imageQueue st).
    destruct (imageQueue st) as [|t rest] eqn:Eq.
    + split; [exact (eq_trans H1 (eq_sym Eq)) | exact H2].
    + destruct (skipn_cons_S _ L rest t H1) as [G1 G2].
      apply IH; unfold start_task, pruneOldStarts; cbn [started imageQueue];
        rewrite length_app; cbn [List.length]; rewrite Nat.add_1_r; assumption.
Qed.

Lemma processImageQueue_fifo (now : Z) (st : Sched) (L : list nat) :
  skipn (List.length (started st)) L = imageQueue st ->
  (List.length (started st) <= List.length L)%nat ->
  skipn (List.length (started (processImageQueue now st))) L = imageQueue (processImageQueue now st)
  /\ (List.length (started (processImageQueue now st)) <= List.length L)%nat.
Proof.
  intros H1 H2. unfold processImageQueue.
  destruct (process_loop_fifo (List.length (imageQueue st)) now (pruneOldStarts now st) L H1 H2)
    as [G1 G2].
  cbv zeta. set (st1 := process_loop (List.length (imageQueue st)) now (pruneOldStarts now st)) in *.
  assert (Hm : forall l : list nat,
    started (match l with [] => st1 | _ :: _ => pruneOldStarts now st1 end) = started st1
    /\ imageQueue (match l with [] => st1 | _ :: _ => pruneOldStarts now st1 end) = imageQueue st1)
    by (intros [|]; split; reflexivity).
  destruct (Hm (imageQueue st1)) as [E1 E2]. rewrite E1, E2. exact (conj G1 G2).
Qed.

Lemma run_fifo (trace : list (Z * SchedEvent)) (st : Sched) (L : list nat) :
  skipn (List.length (started st)) L = imageQueue st ->
  (List.length (started st) <= List.length L)%nat ->
  skipn (List.length (started (run st trace))) (L ++ submitted trace) = imageQueue (run st trace)
  /\ (List.length (started (run st trace)) <= List.length (L ++ submitted trace))%nat.
Proof.
  revert st L. induction trace as [|[now ev] rest IH]; intros st L H1 H2.
  - rewrite app_nil_r. split; assumption.
  - cbn [run submitted]. destruct ev as [t | | t]; cbn [sched_step].
    + replace (L ++ t :: submitted rest)%list with ((L ++ [t]) ++ submitted rest)%list
        by (rewrite <- app_assoc; reflexivity).
      assert (K1 : skipn (List.length (started st)) (L ++ [t])%list = (imageQueue st ++ [t])%list)
        by (rewrite skipn_app_le by exact H2; rewrite H1; reflexivity).
      assert (K2 : (List.length (started st) <= List.length (L ++ [t]))%nat)
        by (rewrite length_app; cbn [List.length]; lia).
      destruct (processImageQueue_fifo now
                  (mkSched (imageQueue st ++ [t]) (imageInFlight st)
                     (imageStartTimestamps st) (running st) (started st)) (L ++ [t]) K1 K2)
        as [G1 G2].
      exact (IH _ _ G1 G2).
    + destruct (processImageQueue_fifo now st L H1 H2) as [G1 G2]. exact (IH _ _ G1 G2).
    + destruct (existsb (Nat.eqb t) (running st)); apply IH; assumption.
Qed.

(** The queue is first-in first-out: along any run from the empty scheduler,
    tasks start in the order [scheduleImageTask] received them, and the
    queue holds exactly the submitted tasks not started yet, in that order. *)
Theorem image_queue_fifo (trace : list (Z * SchedEvent)) :
  imageQueue (run sched0 trace)
  = skipn (List.length (started (run sched0 trace))) (submitted trace).
Proof.
  symmetry. exact (proj1 (run_fifo trace sched0 [] eq_refl (le_n 0))).
Qed.

Lemma prune_twice (now : Z) (st : Sched) :
  pruneOldStarts now (pruneOldStarts now st) = pruneOldStarts now st.
Proof.
  unfold pruneOldStarts. cbn. rewrite filter_absorb by (intros; assumption). reflexivity.
Qed.

Lemma process_loop_exit (fuel : nat) (now : Z) (st : Sched) :
  (List.length (imageQueue st) <= fuel)%nat ->
  exists st1, process_loop fuel now st = pruneOldStarts now st1
  /\ (imageQueue st1 = [] \/ can_start (pruneOldStarts now st1) = false).
Proof.
  revert st. induction fuel as [|f IH]; intros st Hf; cbn [process_loop].
  - exists st. split; [reflexivity | left]. destruct (imageQueue st); [reflexivity | cbn in Hf; lia].
  - destruct (can_start (pruneOldStarts now st)) eqn:Ec.
    + change (imageQueue (pruneOldStarts now st)) with (imageQueue st).
      destruct (imageQueue st) as [|t rest] eqn:Eq.
      * exists st. split; [reflexivity | left; exact Eq].
      * apply IH. cbn [imageQueue start_task]. cbn [List.length] in Hf. lia.
    + exists st. split; [reflexivity | right; exact Ec].
Qed.

(** [processImageQueue] leaves no task waiting while a slot is free: after
    it runs at time [now], the queue is empty, or three tasks are in flight,
    or ten tasks started within the last minute. *)
Theorem processImageQueue_saturates (now : Z) (st : Sched) :
  let st' := processImageQueue now st in
  imageQueue st' = []
  \/ (IMAGE_CONCURRENCY_LIMIT <= imageInFlight st')%nat
  \/ (IMAGE_RPM_LIMIT <= List.length (filter (recent now) (imageStartTimestamps st')))%nat.
Proof.
  cbv zeta. unfold processImageQueue.
  destruct (process_loop_exit (List.length (imageQueue st)) now (pruneOldStarts now st) (le_n _))
    as (st1 & -> & [Hq | Hc]).
  - left. change (imageQueue (pruneOldStarts now st1)) with (imageQueue st1). rewrite Hq.
    exact Hq.
  - destruct (imageQueue (pruneOldStarts now st1)) as [|t rest] eqn:Eq; [left; exact Eq |].
    rewrite prune_twice. right.
    unfold can_start in Hc. apply Bool.andb_false_iff in Hc.
    cbn [pruneOldStarts imageInFlight imageStartTimestamps] in *.
    rewrite filter_absorb by (intros; assumption).
    destruct Hc as [Hc | Hc]; apply Nat.ltb_ge in Hc; [left | right]; exact Hc.
Qed.
